(** * The calibration dot-grid rasterizer of [create_calibration_image.py]

    A shallow embedding of [create_calibration_image] and the proofs of the
    properties its specification states about it.

    Python integers are unbounded: they are modelled by [Z].  The canvas is
    the [numpy] array [image] of shape [(height, width)] and element type
    [uint8]; the only value the function ever stores is [255], which fits.
    Exceptions are modelled by an error monad; the exceptions that the
    function can meet are those of [np.zeros], of [range] and of the indexed
    store [image[yy, xx] = 255].  Memory is taken to be unbounded.

    The function ends by handing the array to the image encoder
    ([Image.fromarray], [img.save]).  The encoder is an external
    collaborator: the embedding covers the lines that build the array, from
    [np.zeros] to the last store, and returns the array that is handed
    over.  A result [Ok img] therefore says that these lines raise nothing
    and that [img] is what the encoder receives; whether the encoder
    accepts it (it need not, as for an array without samples) is outside
    the embedding.  Likewise [np_zeros] is the allocation of an array of
    any size: the limits of the index type and of the memory are not
    modelled. *)

From stdpp Require Import base list list_numbers.
From Stdlib Require Import ZArith Lia.

Local Open Scope Z_scope.

(** ** Exceptions and the error monad *)

Inductive exn : Type :=
  | ValueError_negative_dimensions   (* np.zeros: negative dimensions are not allowed *)
  | ValueError_range_step_zero       (* range() arg 3 must not be zero *)
  | IndexError.                      (* index is out of bounds for axis *)

Inductive result (A : Type) : Type :=
  | Ok (a : A)
  | Raise (e : exn).
Arguments Ok {A} a.
Arguments Raise {A} e.

#[global] Instance result_ret : MRet result := @Ok.
#[global] Instance result_bind : MBind result := λ A B f m,
  match m with
  | Ok a => f a
  | Raise e => Raise e
  end.

(** A [for] statement whose body updates the loop state and may raise. *)
Fixpoint for_ {A S : Type} (xs : list A) (body : A → S → result S) (s : S)
  : result S :=
  match xs with
  | [] => Ok s
  | x :: xs' => s' ← body x s; for_ xs' body s'
  end.

(** ** [range(start, stop, step)] *)

(** The number of elements, as CPython computes it. *)
Definition range_len (start stop step : Z) : Z :=
  if 0 <? step then
    if start <? stop then (stop - start - 1) / step + 1 else 0
  else
    if stop <? start then (start - stop - 1) / (- step) + 1 else 0.

Definition range_list (start stop step : Z) : list Z :=
  (λ i, start + i * step) <$> seqZ 0 (range_len start stop step).

Definition py_range (start stop step : Z) : result (list Z) :=
  if step =? 0 then Raise ValueError_range_step_zero
  else Ok (range_list start stop step).

(** ** The array *)

(** A two-dimensional array: its shape [(nrows, ncols)] and its rows. *)
Record ndarray : Type := mk_ndarray {
  nrows : Z;
  ncols : Z;
  data : list (list Z)
}.

(** [np.zeros((height, width), dtype=np.uint8)] *)
Definition np_zeros (height width : Z) : result ndarray :=
  if (height <? 0) || (width <? 0) then Raise ValueError_negative_dimensions
  else Ok (mk_ndarray height width
             (replicate (Z.to_nat height) (replicate (Z.to_nat width) 0))).

(** An index [i] along an axis of size [n]: a negative index counts from the
    end, and an index outside [-n, n) raises [IndexError]. *)
Definition normalize_index (n i : Z) : result Z :=
  if (i <? - n) || (n <=? i) then Raise IndexError
  else if i <? 0 then Ok (i + n) else Ok i.

(** [a[yy, xx] = v] *)
Definition setitem (a : ndarray) (yy xx v : Z) : result ndarray :=
  j ← normalize_index (nrows a) yy;
  i ← normalize_index (ncols a) xx;
  Ok (mk_ndarray (nrows a) (ncols a)
        (alter (λ row, <[Z.to_nat i := v]> row) (Z.to_nat j) (data a))).

(** ** The function *)

Definition create_calibration_image (width height dot_spacing dot_radius : Z)
  : result ndarray :=
  image ← np_zeros height width;
  ys ← py_range 0 height dot_spacing;
  for_ ys (λ y image,
    xs ← py_range 0 width dot_spacing;
    for_ xs (λ x image,
      dys ← py_range (- dot_radius) (dot_radius + 1) 1;
      for_ dys (λ dy image,
        dxs ← py_range (- dot_radius) (dot_radius + 1) 1;
        for_ dxs (λ dx image,
          if dx * dx + dy * dy <=? dot_radius * dot_radius then
            let yy := y + dy in
            let xx := x + dx in
            if (0 <=? yy) && (yy <? height) && (0 <=? xx) && (xx <? width)
            then setitem image yy xx 255
            else Ok image
          else Ok image) image) image) image) image.

(** ** Observing a canvas *)

(** The sample in column [px] of row [py]; [None] outside the stored rows. *)
Definition sample (a : ndarray) (px py : Z) : option Z :=
  if (py <? 0) || (px <? 0) then None
  else row ← data a !! Z.to_nat py; row !! Z.to_nat px.

(** All the samples, row after row. *)
Definition samples (a : ndarray) : list Z := mjoin (data a).

Definition count_white (a : ndarray) : nat :=
  length (filter (λ v, v = 255) (samples a)).

(** ** Well-formed canvases *)

(** The rows of a canvas agree with its shape [(h, w)]. *)
Definition wf (h w : Z) (a : ndarray) : Prop :=
  nrows a = h ∧ ncols a = w ∧ 0 ≤ h ∧ 0 ≤ w ∧
  length (data a) = Z.to_nat h ∧
  Forall (λ row, length row = Z.to_nat w) (data a).

(** A loop body, or a whole loop, that turns white exactly the samples
    selected by [hit] and leaves the others as they are. *)
Definition paints (h w : Z) (f : ndarray → result ndarray)
    (hit : Z → Z → bool) : Prop :=
  ∀ a, wf h w a →
    ∃ a', f a = Ok a' ∧ wf h w a' ∧
      ∀ py px, 0 ≤ py < h → 0 ≤ px < w →
        sample a' px py = if hit py px then Some 255 else sample a px py.

(** ** The loop bodies, the trace of a run, and canvases by formula *)

(** The samples that the dot centred at [(x, y)] turns white, offset by
    offset: the body of the innermost loop. *)
Definition hit_offset (width height dot_radius y x dy dx : Z)
    (py px : Z) : bool :=
  (dx * dx + dy * dy <=? dot_radius * dot_radius) &&
  ((0 <=? y + dy) && (y + dy <? height) &&
   (0 <=? x + dx) && (x + dx <? width)) &&
  ((py =? y + dy) && (px =? x + dx)).

(** The two inner loops: one dot. *)
Definition hit_dot (width height dot_radius y x : Z) (py px : Z) : bool :=
  existsb (λ dy,
    existsb (λ dx, hit_offset width height dot_radius y x dy dx py px)
      (range_list (- dot_radius) (dot_radius + 1) 1))
    (range_list (- dot_radius) (dot_radius + 1) 1).

(** The four loops: the whole grid. *)
Definition hit_grid (width height dot_spacing dot_radius : Z)
    (py px : Z) : bool :=
  existsb (λ y,
    existsb (λ x, hit_dot width height dot_radius y x py px)
      (range_list 0 width dot_spacing))
    (range_list 0 height dot_spacing).

(** The statement [image[yy, xx] = 255] under its two tests. *)
Definition draw_offset (width height dot_radius y x dy dx : Z)
    (image : ndarray) : result ndarray :=
  if dx * dx + dy * dy <=? dot_radius * dot_radius then
    let yy := y + dy in
    let xx := x + dx in
    if (0 <=? yy) && (yy <? height) && (0 <=? xx) && (xx <? width)
    then setitem image yy xx 255
    else Ok image
  else Ok image.

(** The loops over [dy] and [dx]: the dot at [(x, y)]. *)
Definition draw_dot (width height dot_radius y x : Z) (image : ndarray)
  : result ndarray :=
  dys ← py_range (- dot_radius) (dot_radius + 1) 1;
  for_ dys (λ dy image,
    dxs ← py_range (- dot_radius) (dot_radius + 1) 1;
    for_ dxs (draw_offset width height dot_radius y x dy) image) image.

(** The centers [(y, x)] of the dots, as the two outer loops visit them. *)
Definition centers (width height dot_spacing : Z) : list (Z * Z) :=
  y ← range_list 0 height dot_spacing;
  x ← range_list 0 width dot_spacing;
  [(y, x)].

(** Stamping the dot of one center. *)
Definition stamp (width height dot_radius : Z) (c : Z * Z) (image : ndarray)
  : result ndarray :=
  draw_dot width height dot_radius c.1 c.2 image.

(** The statement [image[yy, xx] = 255] for the coordinate [p = (yy, xx)]. *)
Definition store (p : Z * Z) (image : ndarray) : result ndarray :=
  setitem image p.1 p.2 255.

(** The coordinates [(yy, xx)] that the dot at [(x, y)] stores to, in the
    order of the two inner loops. *)
Definition writes_dot (width height dot_radius y x : Z) : list (Z * Z) :=
  dy ← range_list (- dot_radius) (dot_radius + 1) 1;
  dx ← range_list (- dot_radius) (dot_radius + 1) 1;
  if dx * dx + dy * dy <=? dot_radius * dot_radius then
    if (0 <=? y + dy) && (y + dy <? height) &&
       (0 <=? x + dx) && (x + dx <? width)
    then [(y + dy, x + dx)] else []
  else [].

(** All the stores of a run, in order. *)
Definition writes (width height dot_spacing dot_radius : Z) : list (Z * Z) :=
  c ← centers width height dot_spacing;
  writes_dot width height dot_radius c.1 c.2.

(** The canvas of shape [(h, w)] whose sample at row [py], column [px] is
    [f py px]. *)
Definition tabulate (h w : Z) (f : Z → Z → Z) : ndarray :=
  mk_ndarray h w ((λ py, (λ px, f py px) <$> seqZ 0 w) <$> seqZ 0 h).

(** The number of multiples of [b] in [[0, a)], for [0 < b]: the quotient
    [a / b] rounded up. *)
Definition ceil_div (a b : Z) : Z := (a + b - 1) / b.

Definition count255 (l : list Z) : nat := length (filter (λ v, v = 255) l).

(** ** Calls *)

(** A call that gives the arguments by keyword: an argument that is not
    given takes the default of the signature, [width = 1400],
    [height = 1400], [dot_spacing = 100], [dot_radius = 1]. *)
Definition create_calibration_image_kw
    (width height dot_spacing dot_radius : option Z) : result ndarray :=
  create_calibration_image (default 1400 width) (default 1400 height)
    (default 100 dot_spacing) (default 1 dot_radius).

(** The script under [if __name__ == '__main__']: [width] and [height] are
    assigned twice, and the call gives them and the output path. *)
Definition main : result ndarray :=
  let width := 800 in
  let height := 800 in
  let width := 30 in
  let height := 30 in
  create_calibration_image_kw (Some width) (Some height) None None.

(** The sum of [f] over a list. *)
Definition sumZ {A} (f : A → Z) (l : list A) : Z :=
  foldr (λ x acc, f x + acc) 0 l.

(** ** Facts about the monad and [range] *)

Lemma bind_Ok {A B} (a : A) (f : A → result B) : (Ok a ≫= f) = f a.
Proof. reflexivity. Qed.

Lemma for_app {A S} (l1 l2 : list A) (body : A → S → result S) (s : S) :
  for_ (l1 ++ l2) body s = (s' ← for_ l1 body s; for_ l2 body s').
Proof.
  revert s. induction l1 as [|x l1 IH]; intros s; simpl; [done|].
  destruct (body x s) as [s'|e]; simpl; [apply IH|done].
Qed.

Lemma py_range_Ok start stop step :
  step ≠ 0 → py_range start stop step = Ok (range_list start stop step).
Proof. intros Hs. unfold py_range. by destruct (Z.eqb_spec step 0). Qed.

Lemma py_range_zero start stop :
  py_range start stop 0 = Raise ValueError_range_step_zero.
Proof. reflexivity. Qed.

Lemma elem_of_range_list start stop step x :
  x ∈ range_list start stop step ↔
  ∃ i, 0 ≤ i < range_len start stop step ∧ x = start + i * step.
Proof.
  unfold range_list. rewrite list_elem_of_fmap.
  setoid_rewrite elem_of_seqZ. split.
  - intros (i & -> & Hi). exists i. split; [lia|done].
  - intros (i & Hi & ->). exists i. split; [done|lia].
Qed.

(** [range(0, stop, step)] for a positive step: the multiples of [step]
    in [[0, stop)]. *)
Lemma elem_of_range_multiples stop step x :
  0 < step →
  x ∈ range_list 0 stop step ↔ 0 ≤ x < stop ∧ x mod step = 0.
Proof.
  intros Hs. rewrite elem_of_range_list. unfold range_len.
  destruct (Z.ltb_spec 0 step); [|lia].
  destruct (Z.ltb_spec 0 stop) as [Hp|Hp].
  - replace (stop - 0 - 1) with (stop - 1) by lia. split.
    + intros (i & [Hi0 Hi] & ->).
      assert (i ≤ (stop - 1) / step) as Hle by lia.
      assert (step * ((stop - 1) / step) ≤ stop - 1)
        by (apply Z.mul_div_le; lia).
      split; [nia|]. rewrite Z.add_0_l. by apply Z_mod_mult.
    + intros [[Hx0 Hx] Hm]. exists (x / step).
      assert (x = step * (x / step)) as Hx'
        by (rewrite (Z.div_mod x step) at 1 by lia; lia).
      split; [|lia]. split; [apply Z.div_pos; lia|].
      assert (x / step ≤ (stop - 1) / step)
        by (apply Z.div_le_mono; lia).
      lia.
  - split; [intros (i & ? & _); lia | intros [? _]; lia].
Qed.

(** [range(start, stop)] with step [1]: the integers of [[start, stop)]. *)
Lemma elem_of_range_interval start stop x :
  x ∈ range_list start stop 1 ↔ start ≤ x < stop.
Proof.
  rewrite elem_of_range_list. unfold range_len. simpl.
  rewrite Z.div_1_r.
  destruct (Z.ltb_spec start stop); split.
  - intros (i & ? & ->). lia.
  - intros ?. exists (x - start). lia.
  - intros (i & ? & _). lia.
  - lia.
Qed.

(** ** Facts about the array *)

Lemma np_zeros_Ok h w :
  0 ≤ h → 0 ≤ w →
  np_zeros h w =
    Ok (mk_ndarray h w (replicate (Z.to_nat h) (replicate (Z.to_nat w) 0))).
Proof.
  intros Hh Hw. unfold np_zeros.
  destruct (Z.ltb_spec h 0); [lia|]. destruct (Z.ltb_spec w 0); [lia|done].
Qed.

Lemma zeros_wf h w :
  0 ≤ h → 0 ≤ w →
  wf h w (mk_ndarray h w (replicate (Z.to_nat h) (replicate (Z.to_nat w) 0))).
Proof.
  intros Hh Hw. repeat split; simpl; try done.
  - by rewrite length_replicate.
  - apply Forall_replicate. by rewrite length_replicate.
Qed.

Lemma sample_zeros h w py px :
  0 ≤ py < h → 0 ≤ px < w →
  sample (mk_ndarray h w (replicate (Z.to_nat h) (replicate (Z.to_nat w) 0)))
    px py = Some 0.
Proof.
  intros Hy Hx. unfold sample; simpl.
  destruct (Z.ltb_spec py 0); [lia|]. destruct (Z.ltb_spec px 0); [lia|].
  simpl. rewrite lookup_replicate_2 by lia. simpl.
  by rewrite lookup_replicate_2 by lia.
Qed.

Lemma normalize_index_inb n i : 0 ≤ i < n → normalize_index n i = Ok i.
Proof.
  intros Hi. unfold normalize_index.
  destruct (Z.ltb_spec i (- n)); [lia|].
  destruct (Z.leb_spec n i); [lia|].
  simpl. by destruct (Z.ltb_spec i 0); [lia|].
Qed.

(** An in-bounds sample of a well-formed canvas is stored. *)
Lemma sample_is_Some h w a py px :
  wf h w a → 0 ≤ py < h → 0 ≤ px < w → is_Some (sample a px py).
Proof.
  intros (_ & _ & _ & _ & Hlen & Hrows) Hy Hx. unfold sample.
  destruct (Z.ltb_spec py 0); [lia|]. destruct (Z.ltb_spec px 0); [lia|].
  simpl. destruct (lookup_lt_is_Some_2 (data a) (Z.to_nat py)) as [row Hrow];
    [lia|].
  rewrite Hrow. simpl. apply lookup_lt_is_Some_2.
  rewrite Forall_forall in Hrows.
  rewrite (Hrows row) by (by eapply list_elem_of_lookup_2). lia.
Qed.

(** A store inside the bounds succeeds, keeps the shape, and changes the
    sample it addresses and no other. *)
Lemma setitem_inb h w a yy xx v :
  wf h w a → 0 ≤ yy < h → 0 ≤ xx < w →
  ∃ a', setitem a yy xx v = Ok a' ∧ wf h w a' ∧
    ∀ py px, 0 ≤ py < h → 0 ≤ px < w →
      sample a' px py =
        if (py =? yy) && (px =? xx) then Some v else sample a px py.
Proof.
  intros Hwf Hy Hx.
  pose proof Hwf as (Hr & Hc & Hh & Hw & Hlen & Hrows).
  unfold setitem. rewrite Hr, Hc, !normalize_index_inb by done. simpl.
  eexists. split; [done|]. split.
  - repeat split; simpl; try done.
    + by rewrite length_alter.
    + apply Forall_alter; [done|]. intros row _ Hrow.
      by rewrite length_insert.
  - intros py px Hpy Hpx. unfold sample; simpl.
    destruct (Z.ltb_spec py 0); [lia|]. destruct (Z.ltb_spec px 0); [lia|].
    simpl. destruct (Z.eqb_spec py yy) as [->|Hne]; simpl.
    + rewrite list_lookup_alter_eq.
      destruct (lookup_lt_is_Some_2 (data a) (Z.to_nat yy)) as [row Hrow];
        [lia|].
      rewrite Hrow. simpl.
      assert (length row = Z.to_nat w) as Hrl.
      { rewrite Forall_forall in Hrows. apply Hrows.
        by eapply list_elem_of_lookup_2. }
      destruct (Z.eqb_spec px xx) as [->|Hnx].
      * apply list_lookup_insert_eq. lia.
      * apply list_lookup_insert_ne. lia.
    + rewrite list_lookup_alter_ne by lia. done.
Qed.

(** ** What the loops paint *)

Lemma paints_skip h w : paints h w Ok (λ _ _, false).
Proof. intros a Hwf. exists a. split; [done|]. split; [done|]. by intros. Qed.

Lemma paints_setitem h w yy xx :
  0 ≤ yy < h → 0 ≤ xx < w →
  paints h w (λ a, setitem a yy xx 255) (λ py px, (py =? yy) && (px =? xx)).
Proof.
  intros Hy Hx a Hwf.
  destruct (setitem_inb h w a yy xx 255 Hwf Hy Hx) as (a' & Heq & Hwf' & Hs).
  by exists a'.
Qed.

Lemma paints_ext h w f hit hit' :
  (∀ py px, 0 ≤ py < h → 0 ≤ px < w → hit py px = hit' py px) →
  paints h w f hit → paints h w f hit'.
Proof.
  intros Heq Hp a Hwf. destruct (Hp a Hwf) as (a' & Hf & Hwf' & Hs).
  exists a'. split; [done|]. split; [done|].
  intros py px Hy Hx. rewrite <- Heq by done. by apply Hs.
Qed.

(** A loop paints what its iterations paint. *)
Lemma paints_for {A} h w (body : A → ndarray → result ndarray)
    (hit : A → Z → Z → bool) (l : list A) :
  (∀ i, i ∈ l → paints h w (body i) (hit i)) →
  paints h w (for_ l body) (λ py px, existsb (λ i, hit i py px) l).
Proof.
  induction l as [|i l IH]; intros Hbody; [apply paints_skip|].
  intros a Hwf. simpl.
  destruct (Hbody i (list_elem_of_here _ _) a Hwf) as (a1 & Hf1 & Hwf1 & Hs1).
  rewrite Hf1. simpl.
  destruct (IH (λ j Hj, Hbody j (list_elem_of_further _ _ _ Hj)) a1 Hwf1)
    as (a2 & Hf2 & Hwf2 & Hs2).
  exists a2. split; [done|]. split; [done|].
  intros py px Hy Hx. rewrite Hs2, Hs1 by done.
  destruct (hit i py px); simpl; by destruct (existsb _ l).
Qed.

(** Evaluating the [range] of a loop does not touch the canvas. *)
Lemma paints_range h w start stop step
    (k : list Z → ndarray → result ndarray) hit :
  step ≠ 0 →
  paints h w (k (range_list start stop step)) hit →
  paints h w (λ a, xs ← py_range start stop step; k xs a) hit.
Proof. intros Hs Hp a Hwf. rewrite py_range_Ok by done. by apply Hp. Qed.

(** The function, with its loop bodies named. *)
Lemma create_calibration_image_unfold width height dot_spacing dot_radius :
  create_calibration_image width height dot_spacing dot_radius =
    (image ← np_zeros height width;
     ys ← py_range 0 height dot_spacing;
     for_ ys (λ y image,
       xs ← py_range 0 width dot_spacing;
       for_ xs (λ x image, draw_dot width height dot_radius y x image) image)
       image).
Proof. reflexivity. Qed.

Lemma paints_draw_offset w h r y x dy dx :
  paints h w (draw_offset w h r y x dy dx) (hit_offset w h r y x dy dx).
Proof.
  unfold draw_offset, hit_offset.
  destruct (dx * dx + dy * dy <=? r * r); simpl; [|apply paints_skip].
  destruct (Z.leb_spec 0 (y + dy)); simpl; [|apply paints_skip].
  destruct (Z.ltb_spec (y + dy) h); simpl; [|apply paints_skip].
  destruct (Z.leb_spec 0 (x + dx)); simpl; [|apply paints_skip].
  destruct (Z.ltb_spec (x + dx) w); simpl; [|apply paints_skip].
  apply paints_setitem; lia.
Qed.

Lemma paints_draw_dot w h r y x :
  paints h w (draw_dot w h r y x) (hit_dot w h r y x).
Proof.
  unfold draw_dot, hit_dot.
  apply (paints_range h w _ _ 1 (λ dys a, for_ dys _ a)); [done|].
  apply paints_for. intros dy _.
  apply (paints_range h w _ _ 1 (λ dxs a, for_ dxs _ a)); [done|].
  apply paints_for. intros dx _. apply paints_draw_offset.
Qed.

Lemma paints_grid w h s r :
  s ≠ 0 →
  paints h w
    (λ image, ys ← py_range 0 h s;
       for_ ys (λ y image,
         xs ← py_range 0 w s;
         for_ xs (λ x image, draw_dot w h r y x image) image) image)
    (hit_grid w h s r).
Proof.
  intros Hs. unfold hit_grid.
  apply (paints_range h w _ _ s (λ ys a, for_ ys _ a)); [done|].
  apply paints_for. intros y _.
  apply (paints_range h w _ _ s (λ xs a, for_ xs _ a)); [done|].
  apply paints_for. intros x _. apply paints_draw_dot.
Qed.

(** The canvas the function returns, sample by sample. *)
Lemma create_calibration_image_samples w h s r :
  0 ≤ w → 0 ≤ h → s ≠ 0 →
  ∃ img, create_calibration_image w h s r = Ok img ∧ wf h w img ∧
    ∀ py px, 0 ≤ py < h → 0 ≤ px < w →
      sample img px py = if hit_grid w h s r py px then Some 255 else Some 0.
Proof.
  intros Hw Hh Hs. rewrite create_calibration_image_unfold.
  rewrite np_zeros_Ok by done. rewrite bind_Ok.
  destruct (paints_grid w h s r Hs _ (zeros_wf h w Hh Hw))
    as (img & Heq & Hwf & Hsam).
  exists img. split; [done|]. split; [done|].
  intros py px Hy Hx. rewrite Hsam by done. by rewrite sample_zeros.
Qed.

(** ** The painted samples, as a proposition *)

Lemma existsb_elem_of {A} (f : A → bool) (l : list A) :
  existsb f l = true ↔ ∃ x, x ∈ l ∧ f x = true.
Proof.
  rewrite existsb_exists. split; intros (x & Hx & Hf); exists x; split;
    try done; by apply list_elem_of_In.
Qed.

Lemma hit_offset_true w h r y x dy dx py px :
  hit_offset w h r y x dy dx py px = true ↔
  dx * dx + dy * dy ≤ r * r ∧
  (0 ≤ y + dy < h ∧ 0 ≤ x + dx < w) ∧ py = y + dy ∧ px = x + dx.
Proof.
  unfold hit_offset. rewrite !andb_true_iff.
  rewrite Z.leb_le, !Z.leb_le, !Z.ltb_lt, !Z.eqb_eq. tauto.
Qed.

Lemma hit_dot_true w h r y x py px :
  hit_dot w h r y x py px = true ↔
  (0 ≤ py < h ∧ 0 ≤ px < w) ∧
  (- r ≤ px - x ≤ r ∧ - r ≤ py - y ≤ r) ∧
  (px - x) * (px - x) + (py - y) * (py - y) ≤ r * r.
Proof.
  unfold hit_dot. rewrite existsb_elem_of. split.
  - intros (dy & Hdy & Hex). apply existsb_elem_of in Hex as (dx & Hdx & Hh).
    apply elem_of_range_interval in Hdy, Hdx.
    apply hit_offset_true in Hh as (Hd & Hb & -> & ->).
    replace (x + dx - x) with dx by lia. replace (y + dy - y) with dy by lia.
    split; [done|]. split; [lia|done].
  - intros (Hb & Hr & Hd). exists (py - y). split.
    + apply elem_of_range_interval. lia.
    + apply existsb_elem_of. exists (px - x). split.
      * apply elem_of_range_interval. lia.
      * apply hit_offset_true.
        replace (y + (py - y)) with py by lia.
        replace (x + (px - x)) with px by lia. done.
Qed.

(** A sample is painted when it lies on the canvas and in the square and
    the disk of some center of the grid. *)
Lemma hit_grid_true w h s r py px :
  0 < s →
  hit_grid w h s r py px = true ↔
  (0 ≤ py < h ∧ 0 ≤ px < w) ∧
  ∃ cx cy, (0 ≤ cx < w ∧ cx mod s = 0) ∧ (0 ≤ cy < h ∧ cy mod s = 0) ∧
    (- r ≤ px - cx ≤ r ∧ - r ≤ py - cy ≤ r) ∧
    (px - cx) * (px - cx) + (py - cy) * (py - cy) ≤ r * r.
Proof.
  intros Hs. unfold hit_grid. rewrite existsb_elem_of. split.
  - intros (cy & Hcy & Hex). apply existsb_elem_of in Hex as (cx & Hcx & Hh).
    apply elem_of_range_multiples in Hcy, Hcx; try done.
    apply hit_dot_true in Hh as (Hb & Hr & Hd).
    split; [done|]. by exists cx, cy.
  - intros (Hb & cx & cy & Hcx & Hcy & Hr & Hd). exists cy. split.
    + by apply elem_of_range_multiples.
    + apply existsb_elem_of. exists cx. split.
      * by apply elem_of_range_multiples.
      * by apply hit_dot_true.
Qed.

(** Inside the disk is inside the square, for a radius that is not
    negative. *)
Lemma disk_in_square a b r :
  0 ≤ r → a * a + b * b ≤ r * r → - r ≤ a ≤ r ∧ - r ≤ b ≤ r.
Proof. intros Hr Hd. nia. Qed.

(** ** The shape of a canvas and its samples *)

Lemma length_concat_rows {A} (rows : list (list A)) (n : nat) :
  Forall (λ row, length row = n) rows →
  length (mjoin rows) = (length rows * n)%nat.
Proof.
  induction 1 as [|row rows Hrow _ IH]; simpl; [done|].
  rewrite length_app, IH, Hrow. done.
Qed.

Lemma samples_length h w a :
  wf h w a → length (samples a) = Z.to_nat (w * h).
Proof.
  intros (_ & _ & Hh & Hw & Hlen & Hrows). unfold samples.
  rewrite (length_concat_rows _ _ Hrows), Hlen. nia.
Qed.

(** Every stored sample is the sample of a coordinate of the canvas. *)
Lemma elem_of_samples h w a v :
  wf h w a → v ∈ samples a →
  ∃ py px, 0 ≤ py < h ∧ 0 ≤ px < w ∧ sample a px py = Some v.
Proof.
  intros (_ & _ & Hh & Hw & Hlen & Hrows) Hv. unfold samples in Hv.
  apply list_elem_of_join in Hv as (row & Hv & Hrow).
  apply list_elem_of_lookup in Hrow as (j & Hj).
  apply list_elem_of_lookup in Hv as (i & Hi).
  pose proof (lookup_lt_Some _ _ _ Hj) as Hjlt.
  pose proof (lookup_lt_Some _ _ _ Hi) as Hilt.
  rewrite Forall_forall in Hrows.
  rewrite (Hrows row) in Hilt by (by eapply list_elem_of_lookup_2).
  exists (Z.of_nat j), (Z.of_nat i). split; [lia|]. split; [lia|].
  unfold sample. destruct (Z.ltb_spec (Z.of_nat j) 0); [lia|].
  destruct (Z.ltb_spec (Z.of_nat i) 0); [lia|]. simpl.
  rewrite !Nat2Z.id, Hj. simpl. done.
Qed.

(** Two canvases of one shape with the same samples are the same canvas. *)
Lemma canvas_ext h w a b :
  wf h w a → wf h w b →
  (∀ py px, 0 ≤ py < h → 0 ≤ px < w → sample a px py = sample b px py) →
  a = b.
Proof.
  intros (Har & Hac & Hh & Hw & Hal & Hars) (Hbr & Hbc & _ & _ & Hbl & Hbrs)
    Heq.
  destruct a as [ar ac ad], b as [br bc bd]; simpl in *.
  rewrite Har, Hac, Hbr, Hbc. f_equal.
  apply list_eq_same_length with (Z.to_nat h); try done.
  intros j rowa rowb Hj Hja Hjb.
  rewrite Forall_forall in Hars, Hbrs.
  apply list_eq_same_length with (Z.to_nat w).
  - apply Hbrs. by eapply list_elem_of_lookup_2.
  - apply Hars. by eapply list_elem_of_lookup_2.
  - intros i va vb Hi Hia Hib.
    specialize (Heq (Z.of_nat j) (Z.of_nat i)). unfold sample in Heq.
    simpl in Heq.
    destruct (Z.ltb_spec (Z.of_nat j) 0); [lia|].
    destruct (Z.ltb_spec (Z.of_nat i) 0); [lia|]. simpl in Heq.
    rewrite !Nat2Z.id, Hja, Hjb in Heq. simpl in Heq.
    rewrite Hia, Hib in Heq. injection Heq; [done|lia|lia].
Qed.

(** ** The dots and the stores, in the order of the loops *)

Lemma for_ext {A S} (l : list A) (body body' : A → S → result S) (s : S) :
  (∀ x s', body x s' = body' x s') → for_ l body s = for_ l body' s.
Proof.
  intros Heq. revert s. induction l as [|x l IH]; intros s; simpl; [done|].
  rewrite Heq. destruct (body' x s); simpl; [apply IH|done].
Qed.

(** A loop over a list built by nested iteration is the nested loop. *)
Lemma for_bind {A B S} (l : list A) (f : A → list B)
    (body : B → S → result S) (s : S) :
  for_ (l ≫= f) body s = for_ l (λ x s', for_ (f x) body s') s.
Proof.
  revert s. induction l as [|x l IH]; intros s; [done|].
  rewrite bind_cons, for_app. simpl.
  destruct (for_ (f x) body s); simpl; [apply IH|done].
Qed.

Lemma draw_dot_writes w h r y x a :
  draw_dot w h r y x a = for_ (writes_dot w h r y x) store a.
Proof.
  unfold draw_dot, writes_dot. rewrite py_range_Ok, bind_Ok by done.
  rewrite for_bind. apply for_ext. intros dy a1. rewrite bind_Ok.
  rewrite for_bind. apply for_ext. intros dx a2.
  unfold draw_offset, store.
  destruct (dx * dx + dy * dy <=? r * r); [|done].
  simpl. destruct (_ && _); simpl; [|done].
  by destruct (setitem a2 (y + dy) (x + dx) 255).
Qed.

(** The function stamps the dots of [centers], one after the other. *)
Lemma create_calibration_image_centers w h s r :
  s ≠ 0 →
  create_calibration_image w h s r =
    (image ← np_zeros h w; for_ (centers w h s) (stamp w h r) image).
Proof.
  intros Hs. rewrite create_calibration_image_unfold.
  destruct (np_zeros h w) as [a|e]; [|done].
  rewrite !py_range_Ok by done. rewrite !bind_Ok. unfold centers.
  rewrite for_bind. apply for_ext. intros y a1. rewrite bind_Ok.
  rewrite for_bind. apply for_ext. intros x a2.
  simpl. unfold stamp. simpl. by destruct (draw_dot w h r y x a2).
Qed.

(** The function performs the stores of [writes], one after the other. *)
Lemma create_calibration_image_writes w h s r :
  s ≠ 0 →
  create_calibration_image w h s r =
    (image ← np_zeros h w; for_ (writes w h s r) store image).
Proof.
  intros Hs. rewrite create_calibration_image_centers by done.
  destruct (np_zeros h w) as [a|e]; [|done]. rewrite !bind_Ok.
  unfold writes. rewrite for_bind. apply for_ext. intros c a1.
  apply draw_dot_writes.
Qed.

(** Every store of a run addresses a sample of the canvas. *)
Lemma writes_dot_inb w h r y x p :
  p ∈ writes_dot w h r y x → 0 ≤ p.1 < h ∧ 0 ≤ p.2 < w.
Proof.
  unfold writes_dot. intros Hp.
  apply list_elem_of_bind in Hp as (dy & Hp & _).
  apply list_elem_of_bind in Hp as (dx & Hp & _).
  destruct (dx * dx + dy * dy <=? r * r); [|by apply elem_of_nil in Hp].
  destruct (Z.leb_spec 0 (y + dy)); simpl in Hp; [|by apply elem_of_nil in Hp].
  destruct (Z.ltb_spec (y + dy) h); simpl in Hp; [|by apply elem_of_nil in Hp].
  destruct (Z.leb_spec 0 (x + dx)); simpl in Hp; [|by apply elem_of_nil in Hp].
  destruct (Z.ltb_spec (x + dx) w); simpl in Hp; [|by apply elem_of_nil in Hp].
  apply list_elem_of_singleton in Hp as ->. simpl. lia.
Qed.

Lemma writes_inb w h s r p :
  p ∈ writes w h s r → 0 ≤ p.1 < h ∧ 0 ≤ p.2 < w.
Proof.
  unfold writes. intros Hp. apply list_elem_of_bind in Hp as (c & Hp & _).
  by eapply writes_dot_inb.
Qed.

(** A sequence of stores inside the bounds paints the coordinates stored
    to. *)
Lemma paints_stores h w (ps : list (Z * Z)) :
  (∀ p, p ∈ ps → 0 ≤ p.1 < h ∧ 0 ≤ p.2 < w) →
  paints h w (for_ ps store)
    (λ py px, existsb (λ p, (py =? p.1) && (px =? p.2)) ps).
Proof.
  intros Hps. apply paints_for. intros p Hp.
  destruct (Hps p Hp). by apply paints_setitem.
Qed.

(** ** Canvases given by a formula, and counting white samples *)

Lemma tabulate_wf h w f : 0 ≤ h → 0 ≤ w → wf h w (tabulate h w f).
Proof.
  intros Hh Hw. unfold wf, tabulate; simpl.
  split; [done|]. split; [done|]. split; [done|]. split; [done|]. split.
  - by rewrite length_fmap, length_seqZ.
  - apply Forall_fmap, Forall_forall. intros py _. simpl.
    by rewrite length_fmap, length_seqZ.
Qed.

Lemma sample_tabulate h w f py px :
  0 ≤ py < h → 0 ≤ px < w → sample (tabulate h w f) px py = Some (f py px).
Proof.
  intros Hy Hx. unfold sample, tabulate; simpl.
  destruct (Z.ltb_spec py 0); [lia|]. destruct (Z.ltb_spec px 0); [lia|].
  simpl. rewrite list_lookup_fmap, lookup_seqZ_lt by lia. simpl.
  rewrite list_lookup_fmap, lookup_seqZ_lt by lia. simpl.
  by rewrite !Z.add_0_l, !Z2Nat.id by lia.
Qed.

Lemma canvas_tabulate h w a f :
  wf h w a →
  (∀ py px, 0 ≤ py < h → 0 ≤ px < w → sample a px py = Some (f py px)) →
  a = tabulate h w f.
Proof.
  intros Hwf Hs. pose proof Hwf as (_ & _ & Hh & Hw & _).
  apply (canvas_ext h w); [done|by apply tabulate_wf|].
  intros py px Hy Hx. by rewrite Hs, sample_tabulate.
Qed.

Lemma ceil_div_succ n s :
  0 < s → 0 ≤ n →
  ceil_div (n + 1) s = ceil_div n s + (if n mod s =? 0 then 1 else 0).
Proof.
  intros Hs Hn. unfold ceil_div.
  replace (n + 1 + s - 1) with (n + s) by lia.
  pose proof (Z.div_mod n s ltac:(lia)) as Hdm.
  pose proof (Z.mod_pos_bound n s Hs) as Hmb.
  destruct (Z.eqb_spec (n mod s) 0) as [H0|H0].
  - rewrite <- (Z.div_unique (n + s) s (n / s + 1) 0) by lia.
    rewrite <- (Z.div_unique (n + s - 1) s (n / s) (s - 1)) by lia. lia.
  - rewrite <- (Z.div_unique (n + s) s (n / s + 1) (n mod s)) by lia.
    rewrite <- (Z.div_unique (n + s - 1) s (n / s + 1) (n mod s - 1)) by lia.
    lia.
Qed.

Lemma ceil_div_0 s : 0 < s → ceil_div 0 s = 0.
Proof. intros Hs. unfold ceil_div. apply Z.div_small. lia. Qed.

Lemma ceil_div_nonneg n s : 0 < s → 0 ≤ n → 0 ≤ ceil_div n s.
Proof. intros Hs Hn. unfold ceil_div. apply Z.div_pos; lia. Qed.

Lemma count255_app l1 l2 : count255 (l1 ++ l2) = (count255 l1 + count255 l2)%nat.
Proof. unfold count255. by rewrite filter_app, length_app. Qed.

(** Pieces that hold [c] white samples at every multiple of [s] and none
    elsewhere: the first [n] pieces hold [ceil_div n s * c] of them. *)
Lemma count255_periodic (g : Z → list Z) (c : nat) (s : Z) (n : nat) :
  0 < s →
  (∀ i, 0 ≤ i → count255 (g i) = if i mod s =? 0 then c else 0%nat) →
  count255 (mjoin (g <$> seqZ 0 (Z.of_nat n))) =
    (Z.to_nat (ceil_div (Z.of_nat n) s) * c)%nat.
Proof.
  intros Hs Hg. induction n as [|n IH].
  - simpl. by rewrite ceil_div_0.
  - rewrite seqZ_S, fmap_app, join_app, count255_app, IH. simpl.
    rewrite app_nil_r, Z.add_0_l, Hg by lia.
    rewrite Nat2Z.inj_succ, <- Z.add_1_r, ceil_div_succ by lia.
    pose proof (ceil_div_nonneg (Z.of_nat n) s Hs ltac:(lia)).
    destruct (Z.of_nat n mod s =? 0); [|rewrite Z.add_0_r; lia].
    rewrite Z2Nat.inj_add by lia. simpl. lia.
Qed.

Lemma join_singletons {A B} (f : A → B) (l : list A) :
  mjoin ((λ x, [f x]) <$> l) = f <$> l.
Proof. induction l as [|x l IH]; csimpl; [done|]. by rewrite IH. Qed.

Lemma count255_grid_row w s :
  0 ≤ w → 0 < s →
  count255 ((λ px, if px mod s =? 0 then 255 else 0) <$> seqZ 0 w) =
    Z.to_nat (ceil_div w s).
Proof.
  intros Hw Hs. rewrite <- join_singletons.
  rewrite <- (Z2Nat.id w) at 1 by done.
  rewrite (count255_periodic _ 1%nat s); [rewrite Z2Nat.id by done; lia|done|].
  intros px _. unfold count255. by destruct (px mod s =? 0).
Qed.

Lemma count255_black_row {A} (l : list A) : count255 ((λ _, 0) <$> l) = 0%nat.
Proof.
  unfold count255. induction l as [|x l IH]; [done|].
  by rewrite fmap_cons, filter_cons_False.
Qed.

(** The white samples of the canvas whose white samples are the points of
    the grid. *)
Lemma count_white_grid h w s :
  0 ≤ h → 0 ≤ w → 0 < s →
  count_white
    (tabulate h w
       (λ py px, if (py mod s =? 0) && (px mod s =? 0) then 255 else 0)) =
    Z.to_nat (ceil_div w s * ceil_div h s).
Proof.
  intros Hh Hw Hs. unfold count_white, samples, tabulate. simpl.
  change (length (filter (λ v, v = 255) ?l)) with (count255 l).
  rewrite <- (Z2Nat.id h) at 1 by done.
  rewrite (count255_periodic _ (Z.to_nat (ceil_div w s)) s).
  - rewrite Z2Nat.id by done.
    pose proof (ceil_div_nonneg h s Hs Hh).
    pose proof (ceil_div_nonneg w s Hs Hw).
    rewrite Z2Nat.inj_mul by done. lia.
  - done.
  - intros py _. destruct (py mod s =? 0); simpl.
    + by apply count255_grid_row.
    + apply count255_black_row.
Qed.

(** ** Further facts used by the properties below *)

Lemma range_list_empty start stop : stop ≤ start → range_list start stop 1 = [].
Proof.
  intros Hle. unfold range_list, range_len. simpl.
  destruct (Z.ltb_spec start stop); [lia|done].
Qed.

Lemma bind_empty {A B} (l : list A) : l ≫= (λ _, @nil B) = [].
Proof. induction l as [|x l IH]; [done|]. by rewrite bind_cons, IH. Qed.

(** With a negative radius the ranges of the offsets are empty: no store. *)
Lemma writes_negative_radius w h s r : r < 0 → writes w h s r = [].
Proof.
  intros Hr. unfold writes.
  rewrite <- (bind_empty (centers w h s)). apply list_bind_ext; [|done].
  intros c. unfold writes_dot. by rewrite range_list_empty by lia.
Qed.

(** A canvas whose in-bounds samples are all [0] or [255]. *)
Lemma samples_black_or_white h w a :
  wf h w a →
  (∀ py px, 0 ≤ py < h → 0 ≤ px < w →
     sample a px py = Some 0 ∨ sample a px py = Some 255) →
  Forall (λ v, v = 0 ∨ v = 255) (samples a).
Proof.
  intros Hwf Hs. apply Forall_forall. intros v Hv.
  destruct (elem_of_samples h w a v Hwf Hv) as (py & px & Hy & Hx & Heq).
  destruct (Hs py px Hy Hx) as [H0|H0]; rewrite H0 in Heq;
    injection Heq as <-; auto.
Qed.

(** The canvas after any sequence of in-bounds stores into the black one. *)
Lemma stores_from_black h w (ps : list (Z * Z)) :
  0 ≤ h → 0 ≤ w →
  (∀ p, p ∈ ps → 0 ≤ p.1 < h ∧ 0 ≤ p.2 < w) →
  ∃ a,
    for_ ps store
      (mk_ndarray h w (replicate (Z.to_nat h) (replicate (Z.to_nat w) 0)))
      = Ok a ∧
    wf h w a ∧ Forall (λ v, v = 0 ∨ v = 255) (samples a).
Proof.
  intros Hh Hw Hps.
  destruct (paints_stores h w ps Hps _ (zeros_wf h w Hh Hw))
    as (a & Heq & Hwf & Hs).
  exists a. split; [done|]. split; [done|].
  apply (samples_black_or_white h w); [done|].
  intros py px Hy Hx. rewrite Hs, sample_zeros by done.
  destruct (existsb _ ps); auto.
Qed.

(** The three outcomes of a call. *)
Lemma create_calibration_image_cases w h s r :
  ((h < 0 ∨ w < 0) ∧
   create_calibration_image w h s r = Raise ValueError_negative_dimensions) ∨
  ((0 ≤ h ∧ 0 ≤ w ∧ s = 0) ∧
   create_calibration_image w h s r = Raise ValueError_range_step_zero) ∨
  ((0 ≤ h ∧ 0 ≤ w ∧ s ≠ 0) ∧
   ∃ img, create_calibration_image w h s r = Ok img ∧ wf h w img).
Proof.
  destruct (Z.ltb_spec h 0) as [Hh|Hh].
  { left. split; [lia|]. unfold create_calibration_image, np_zeros.
    by destruct (Z.ltb_spec h 0); [|lia]. }
  destruct (Z.ltb_spec w 0) as [Hw|Hw].
  { left. split; [lia|]. unfold create_calibration_image, np_zeros.
    destruct (Z.ltb_spec h 0); [lia|]. by destruct (Z.ltb_spec w 0); [|lia]. }
  right. destruct (Z.eq_dec s 0) as [->|Hs].
  - left. split; [done|]. unfold create_calibration_image.
    by rewrite np_zeros_Ok by done.
  - right. split; [done|].
    destruct (create_calibration_image_samples w h s r Hw Hh Hs)
      as (img & Heq & Hwf & _).
    by exists img.
Qed.

(** Stamping a list of dots paints the union of their disks, whatever the
    list and its order. *)
Lemma paints_stamps w h r (cs : list (Z * Z)) :
  paints h w (for_ cs (stamp w h r))
    (λ py px, existsb (λ c, hit_dot w h r c.1 c.2 py px) cs).
Proof. apply paints_for. intros c _. apply paints_draw_dot. Qed.

Lemma stamps_permutation w h r (cs cs' : list (Z * Z)) a :
  wf h w a → cs ≡ₚ cs' →
  for_ cs (stamp w h r) a = for_ cs' (stamp w h r) a.
Proof.
  intros Hwf Hperm.
  destruct (paints_stamps w h r cs a Hwf) as (a1 & Heq1 & Hwf1 & Hs1).
  destruct (paints_stamps w h r cs' a Hwf) as (a2 & Heq2 & Hwf2 & Hs2).
  rewrite Heq1, Heq2. f_equal. apply (canvas_ext h w); try done.
  intros py px Hy Hx. rewrite Hs1, Hs2 by done.
  assert (existsb (λ c, hit_dot w h r c.1 c.2 py px) cs =
          existsb (λ c, hit_dot w h r c.1 c.2 py px) cs') as ->; [|done].
  apply eq_true_iff_eq. rewrite !existsb_elem_of.
  by setoid_rewrite Hperm.
Qed.

(** Storing white twice at one place is storing it once. *)
Lemma store_idempotent h w a p :
  wf h w a → 0 ≤ p.1 < h → 0 ≤ p.2 < w →
  (a' ← store p a; store p a') = store p a.
Proof.
  intros Hwf Hy Hx. unfold store.
  destruct (setitem_inb h w a p.1 p.2 255 Hwf Hy Hx) as (a1 & Heq1 & Hwf1 & Hs1).
  destruct (setitem_inb h w a1 p.1 p.2 255 Hwf1 Hy Hx)
    as (a2 & Heq2 & Hwf2 & Hs2).
  rewrite Heq1, bind_Ok, Heq2. f_equal. apply (canvas_ext h w); try done.
  intros py px Hpy Hpx. rewrite Hs2, Hs1 by done.
  by destruct (_ && _).
Qed.

(** With radius [0] the painted samples are the points of the grid. *)
Lemma hit_grid_radius_0 w h s py px :
  0 < s → 0 ≤ py < h → 0 ≤ px < w →
  hit_grid w h s 0 py px = (py mod s =? 0) && (px mod s =? 0).
Proof.
  intros Hs Hy Hx. apply eq_true_iff_eq.
  rewrite hit_grid_true, andb_true_iff, !Z.eqb_eq by done. split.
  - intros (_ & cx & cy & [_ Hcx] & [_ Hcy] & [Hdx Hdy] & _).
    replace px with cx by lia. by replace py with cy by lia.
  - intros [Hpy Hpx]. split; [done|]. exists px, py.
    rewrite !Z.sub_diag. repeat split; try done; lia.
Qed.

(** [ceil_div a b] is the least [q] with [a ≤ q * b]. *)
Lemma ceil_div_is_ceiling a b :
  0 < b → (ceil_div a b - 1) * b < a ≤ ceil_div a b * b.
Proof.
  intros Hb. unfold ceil_div.
  pose proof (Z.div_mod (a + b - 1) b ltac:(lia)).
  pose proof (Z.mod_pos_bound (a + b - 1) b Hb). nia.
Qed.

Lemma elem_of_centers w h s c :
  0 < s →
  c ∈ centers w h s ↔
  (0 ≤ c.1 < h ∧ c.1 mod s = 0) ∧ (0 ≤ c.2 < w ∧ c.2 mod s = 0).
Proof.
  intros Hs. unfold centers. rewrite list_elem_of_bind. split.
  - intros (y & Hc & Hy). apply list_elem_of_bind in Hc as (x & Hc & Hx).
    apply list_elem_of_singleton in Hc as ->. simpl.
    by apply elem_of_range_multiples in Hy, Hx.
  - intros [Hy Hx]. exists c.1. split; [|by apply elem_of_range_multiples].
    apply list_elem_of_bind. exists c.2.
    split; [|by apply elem_of_range_multiples].
    apply list_elem_of_singleton. by destruct c.
Qed.

(** The coordinates that a dot stores to. *)
Lemma elem_of_writes_dot w h r y x p :
  p ∈ writes_dot w h r y x ↔
  ∃ dy dx, (- r ≤ dy ≤ r ∧ - r ≤ dx ≤ r) ∧
    dx * dx + dy * dy ≤ r * r ∧
    (0 ≤ y + dy < h ∧ 0 ≤ x + dx < w) ∧ p = (y + dy, x + dx).
Proof.
  unfold writes_dot. rewrite list_elem_of_bind. split.
  - intros (dy & Hp & Hdy). apply list_elem_of_bind in Hp as (dx & Hp & Hdx).
    apply elem_of_range_interval in Hdy, Hdx. exists dy, dx.
    destruct (Z.leb_spec (dx * dx + dy * dy) (r * r));
      [|by apply elem_of_nil in Hp].
    destruct (Z.leb_spec 0 (y + dy)); simpl in Hp; [|by apply elem_of_nil in Hp].
    destruct (Z.ltb_spec (y + dy) h); simpl in Hp; [|by apply elem_of_nil in Hp].
    destruct (Z.leb_spec 0 (x + dx)); simpl in Hp; [|by apply elem_of_nil in Hp].
    destruct (Z.ltb_spec (x + dx) w); simpl in Hp; [|by apply elem_of_nil in Hp].
    apply list_elem_of_singleton in Hp. repeat split; try done; lia.
  - intros (dy & dx & [Hdy Hdx] & Hd & [Hy Hx] & ->).
    exists dy. split; [|apply elem_of_range_interval; lia].
    apply list_elem_of_bind. exists dx.
    split; [|apply elem_of_range_interval; lia].
    destruct (Z.leb_spec (dx * dx + dy * dy) (r * r)); [|lia].
    destruct (Z.leb_spec 0 (y + dy)); [|lia].
    destruct (Z.ltb_spec (y + dy) h); [|lia].
    destruct (Z.leb_spec 0 (x + dx)); [|lia].
    destruct (Z.ltb_spec (x + dx) w); [|lia].
    simpl. apply list_elem_of_here.
Qed.

(** The coordinates that a run stores to: the points of the disks of the
    dots that lie on the canvas. *)
Lemma elem_of_writes w h s r p :
  0 < s →
  p ∈ writes w h s r ↔
  ∃ cx cy dx dy,
    (0 ≤ cx < w ∧ cx mod s = 0) ∧ (0 ≤ cy < h ∧ cy mod s = 0) ∧
    (- r ≤ dx ≤ r ∧ - r ≤ dy ≤ r) ∧ dx * dx + dy * dy ≤ r * r ∧
    (0 ≤ cy + dy < h ∧ 0 ≤ cx + dx < w) ∧ p = (cy + dy, cx + dx).
Proof.
  intros Hs. unfold writes. rewrite list_elem_of_bind. split.
  - intros (c & Hp & Hc). apply elem_of_centers in Hc as [Hcy Hcx]; [|done].
    apply elem_of_writes_dot in Hp as (dy & dx & [Hdy Hdx] & Hd & Hb & ->).
    by exists c.2, c.1, dx, dy.
  - intros (cx & cy & dx & dy & Hcx & Hcy & [Hdx Hdy] & Hd & Hb & ->).
    exists (cy, cx). split; [|by apply elem_of_centers].
    apply elem_of_writes_dot. by exists dy, dx.
Qed.

(** The samples that the loops paint are the coordinates stored to. *)
Lemma elem_of_writes_hit w h s r py px :
  0 < s → (py, px) ∈ writes w h s r ↔ hit_grid w h s r py px = true.
Proof.
  intros Hs. rewrite elem_of_writes, hit_grid_true by done. split.
  - intros (cx & cy & dx & dy & Hcx & Hcy & [Hdx Hdy] & Hd & Hb & Hp).
    injection Hp as -> ->. split; [done|]. exists cx, cy.
    replace (cx + dx - cx) with dx by lia.
    by replace (cy + dy - cy) with dy by lia.
  - intros (Hb & cx & cy & Hcx & Hcy & Hsq & Hd).
    exists cx, cy, (px - cx), (py - cy).
    replace (cy + (py - cy)) with py by lia.
    by replace (cx + (px - cx)) with px by lia.
Qed.

(** * The properties of the specification *)

(** The behaviour of the indexed store that the bounds test of the function
    keeps away from: a negative index counts from the end, and an index at
    or beyond the size raises. *)
Example setitem_negative_index_wraps :
  setitem (mk_ndarray 2 2 [[0; 0]; [0; 0]]) (-1) 0 255 =
    Ok (mk_ndarray 2 2 [[0; 0]; [255; 0]]).
Proof. reflexivity. Qed.

Example setitem_beyond_raises :
  setitem (mk_ndarray 2 2 [[0; 0]; [0; 0]]) 2 0 255 = Raise IndexError.
Proof. reflexivity. Qed.

(** The dot centered at [(0, 0)] with radius [2]: the visible quarter. *)
Example quarter_disk_radius_2 :
  create_calibration_image 4 4 100 2 =
    Ok (mk_ndarray 4 4
          [[255; 255; 255; 0];
           [255; 255;   0; 0];
           [255;   0;   0; 0];
           [  0;   0;   0; 0]]).
Proof. reflexivity. Qed.

(** C1: on a valid input ([0 < width], [0 < height], [0 < spacing],
    [0 ≤ radius]) the function returns a canvas, and a sample [(px, py)]
    of that canvas is [255] exactly when some center [(cx, cy)] of the grid
    ([cx] a multiple of the spacing in [[0, width)], [cy] a multiple of the
    spacing in [[0, height)]) has the sample in its disk,
    [dx * dx + dy * dy ≤ radius * radius] for [dx = px - cx] and
    [dy = py - cy]; every other sample is [0]. *)
Theorem C1_white_iff_in_a_disk w h s r :
  0 < w → 0 < h → 0 < s → 0 ≤ r →
  ∃ img, create_calibration_image w h s r = Ok img ∧
    ∀ px py, 0 ≤ px < w → 0 ≤ py < h →
      (sample img px py = Some 255 ↔
         ∃ cx cy, (0 ≤ cx < w ∧ cx mod s = 0) ∧ (0 ≤ cy < h ∧ cy mod s = 0) ∧
           (px - cx) * (px - cx) + (py - cy) * (py - cy) ≤ r * r) ∧
      (sample img px py ≠ Some 255 → sample img px py = Some 0).
Proof.
  intros Hw Hh Hs Hr.
  destruct (create_calibration_image_samples w h s r
              ltac:(lia) ltac:(lia) ltac:(lia)) as (img & Heq & _ & Hsam).
  exists img. split; [done|]. intros px py Hx Hy. rewrite Hsam by done.
  destruct (hit_grid w h s r py px) eqn:Hhit.
  - split; [|done]. split; [|done]. intros _.
    apply hit_grid_true in Hhit as (_ & cx & cy & Hcx & Hcy & _ & Hd); [|done].
    by exists cx, cy.
  - split; [|done]. split; [done|]. intros (cx & cy & Hcx & Hcy & Hd).
    assert (hit_grid w h s r py px = true) as Ht; [|congruence].
    apply hit_grid_true; [done|]. split; [done|]. exists cx, cy.
    pose proof (disk_in_square _ _ _ Hr Hd). done.
Qed.

Lemma C1_white_iff_in_a_disk_witness :
  (0 < 7 ∧ 0 < 5 ∧ 0 < 3 ∧ 0 ≤ 1) ∧
  ∃ img, create_calibration_image 7 5 3 1 = Ok img ∧
    ∀ px py, 0 ≤ px < 7 → 0 ≤ py < 5 →
      (sample img px py = Some 255 ↔
         ∃ cx cy, (0 ≤ cx < 7 ∧ cx mod 3 = 0) ∧ (0 ≤ cy < 5 ∧ cy mod 3 = 0) ∧
           (px - cx) * (px - cx) + (py - cy) * (py - cy) ≤ 1 * 1) ∧
      (sample img px py ≠ Some 255 → sample img px py = Some 0).
Proof.
  split; [lia|]. apply (C1_white_iff_in_a_disk 7 5 3 1); lia.
Defined.

(** C2, as the code has it: the function validates nothing itself.  A
    failure of the allocation of the array, as for a negative width or
    height, is the failure of the call.  For a positive width and height,
    once the array is allocated, the loops raise when the spacing is [0]
    (the error of [range] at the first loop) and in no other case: with any
    other spacing and with any radius, a negative spacing and a negative
    radius included, they complete and yield a canvas of [height] rows of
    [width] samples.  No store ever raises.  So
    [rasterize(width=10, height=10, spacing=0, radius=1)] fails, and
    [rasterize(width=10, height=10, spacing=5, radius=-1)] does not: it
    yields the all-zero canvas. *)
Theorem C2_failures_of_the_code w h s r :
  (∀ e, np_zeros h w = Raise e → create_calibration_image w h s r = Raise e) ∧
  (0 < w → 0 < h → ∀ img0, np_zeros h w = Ok img0 →
     (s = 0 →
        create_calibration_image w h s r = Raise ValueError_range_step_zero) ∧
     (s ≠ 0 →
        ∃ img, create_calibration_image w h s r = Ok img ∧
          nrows img = h ∧ ncols img = w ∧
          length (samples img) = Z.to_nat (w * h))) ∧
  create_calibration_image w h s r ≠ Raise IndexError ∧
  create_calibration_image (-1) 10 5 1 = Raise ValueError_negative_dimensions ∧
  create_calibration_image 10 10 0 1 = Raise ValueError_range_step_zero ∧
  create_calibration_image 10 10 5 (-1) =
    Ok (mk_ndarray 10 10 (replicate 10 (replicate 10 0))) ∧
  create_calibration_image 10 10 (-5) 1 =
    Ok (mk_ndarray 10 10 (replicate 10 (replicate 10 0))).
Proof.
  split; [|split; [|split; [|by vm_compute]]].
  - intros e He. unfold create_calibration_image. by rewrite He.
  - intros Hw Hh img0 _. split.
    + intros ->. unfold create_calibration_image.
      by rewrite np_zeros_Ok by lia.
    + intros Hs.
      destruct (create_calibration_image_samples w h s r
                  ltac:(lia) ltac:(lia) Hs) as (img & Heq & Hwf & _).
      exists img. pose proof Hwf as (Hr1 & Hr2 & _).
      split; [done|]. split; [done|]. split; [done|].
      by apply (samples_length h w).
  - destruct (create_calibration_image_cases w h s r)
      as [[_ Heq]|[[_ Heq]|[_ (img & Heq & _)]]]; congruence.
Qed.

Lemma C2_failures_of_the_code_witness :
  (0 < 10 ∧ 0 < 10 ∧
   np_zeros 10 10 = Ok (mk_ndarray 10 10 (replicate 10 (replicate 10 0))) ∧
   5 ≠ 0) ∧
  ∃ img, create_calibration_image 10 10 5 (-1) = Ok img ∧
    nrows img = 10 ∧ ncols img = 10 ∧
    length (samples img) = Z.to_nat (10 * 10).
Proof.
  split; [repeat split; lia|].
  destruct (C2_failures_of_the_code 10 10 5 (-1)) as (_ & Hloops & _).
  destruct (Hloops ltac:(lia) ltac:(lia) _ eq_refl) as [_ Hok].
  apply Hok. lia.
Defined.

(** C2, as the specification states it, fails: with a negative radius (and
    likewise with a negative spacing) and valid dimensions the function
    raises nothing and yields a canvas. *)
Lemma C2_counterexample :
  (-1 < 0 ∧ -5 < 0) ∧
  create_calibration_image 10 10 5 (-1) =
    Ok (mk_ndarray 10 10 (replicate 10 (replicate 10 0))) ∧
  create_calibration_image 10 10 (-5) 1 =
    Ok (mk_ndarray 10 10 (replicate 10 (replicate 10 0))) ∧
  ∀ e, create_calibration_image 10 10 5 (-1) ≠ Raise e ∧
       create_calibration_image 10 10 (-5) 1 ≠ Raise e.
Proof.
  split; [lia|]. split; [by vm_compute|]. split; [by vm_compute|].
  intros e. split; by vm_compute.
Qed.

(** C3, as the code has it: [rasterize(width=30, height=30, spacing=100,
    radius=1)] yields a canvas whose only non-zero samples are the part of
    the disk of radius [1] centered at [(0, 0)] that lies on the canvas:
    exactly 3 white samples, the center [(0, 0)] and its neighbors [(1, 0)]
    and [(0, 1)]; all other samples are [0]. *)
Theorem C3_single_clipped_dot :
  ∃ img, create_calibration_image 30 30 100 1 = Ok img ∧
    (∀ px py, 0 ≤ px < 30 → 0 ≤ py < 30 →
       (sample img px py = Some 255 ↔
          (px = 0 ∧ py = 0) ∨ (px = 1 ∧ py = 0) ∨ (px = 0 ∧ py = 1)) ∧
       (sample img px py ≠ Some 255 → sample img px py = Some 0)) ∧
    count_white img = 3%nat.
Proof.
  exists (tabulate 30 30 (λ py px,
    if ((py =? 0) && (px <=? 1)) || ((py =? 1) && (px =? 0))
    then 255 else 0)).
  split; [by vm_compute|]. split; [|by vm_compute].
  intros px py Hx Hy. rewrite sample_tabulate by done.
  destruct (Z.eqb_spec py 0), (Z.leb_spec px 1), (Z.eqb_spec py 1),
    (Z.eqb_spec px 0); simpl; (split; [split|]); try done; try lia;
    intros _; lia.
Qed.

(** C3, as the specification states it, fails: the canvas has 3 white
    samples, not 5; the neighbors [(-1, 0)] and [(0, -1)] of the center are
    not samples of the canvas. *)
Lemma C3_counterexample :
  ∃ img, create_calibration_image 30 30 100 1 = Ok img ∧
    count_white img = 3%nat ∧ count_white img ≠ 5%nat ∧
    sample img (-1) 0 = None ∧ sample img 0 (-1) = None.
Proof. eexists. split; [by vm_compute|]. by vm_compute. Qed.

(** C4: on a valid input the canvas starts all-zero, every store of the run
    leaves a canvas of the same dimensions, and the canvas returned has
    exactly [width * height] samples, each of them [0] or [255]. *)
Theorem C4_shape_and_sample_values w h s r :
  0 < w → 0 < h → 0 < s → 0 ≤ r →
  ∃ img0 img,
    np_zeros h w = Ok img0 ∧
    (nrows img0 = h ∧ ncols img0 = w ∧ Forall (λ v, v = 0) (samples img0)) ∧
    for_ (writes w h s r) store img0 = Ok img ∧
    create_calibration_image w h s r = Ok img ∧
    (nrows img = h ∧ ncols img = w ∧
     length (samples img) = Z.to_nat (w * h) ∧
     Forall (λ v, v = 0 ∨ v = 255) (samples img)) ∧
    ∀ ps, ps `prefix_of` writes w h s r →
      ∃ a, for_ ps store img0 = Ok a ∧
        nrows a = h ∧ ncols a = w ∧
        length (samples a) = Z.to_nat (w * h) ∧
        Forall (λ v, v = 0 ∨ v = 255) (samples a).
Proof.
  intros Hw Hh Hs Hr.
  assert (0 ≤ h) as Hh0 by lia. assert (0 ≤ w) as Hw0 by lia.
  destruct (stores_from_black h w (writes w h s r) Hh0 Hw0
              (λ p, writes_inb w h s r p)) as (img & Heq & Hwf & Hbw).
  eexists _, img. split; [by apply np_zeros_Ok|].
  split; [|split; [exact Heq|split; [|split]]].
  - simpl. split; [done|]. split; [done|].
    apply Forall_forall. intros v Hv.
    apply list_elem_of_join in Hv as (row & Hv & Hrow).
    apply elem_of_replicate in Hrow as [-> _].
    by apply elem_of_replicate in Hv as [-> _].
  - rewrite create_calibration_image_writes, np_zeros_Ok by lia. exact Heq.
  - pose proof Hwf as (Hr1 & Hr2 & _).
    split; [done|]. split; [done|]. split; [|done].
    by apply (samples_length h w).
  - intros ps [qs Hqs].
    destruct (stores_from_black h w ps Hh0 Hw0) as (a & Ha & Hwfa & Hbwa).
    { intros p Hp. apply (writes_inb w h s r). rewrite Hqs.
      apply elem_of_app. by left. }
    exists a. pose proof Hwfa as (Hr1 & Hr2 & _).
    split; [done|]. split; [done|]. split; [done|]. split; [|done].
    by apply (samples_length h w).
Qed.

Lemma C4_shape_and_sample_values_witness :
  (0 < 5 ∧ 0 < 4 ∧ 0 < 2 ∧ 0 ≤ 1) ∧
  ∃ img0 img,
    np_zeros 4 5 = Ok img0 ∧
    (nrows img0 = 4 ∧ ncols img0 = 5 ∧ Forall (λ v, v = 0) (samples img0)) ∧
    for_ (writes 5 4 2 1) store img0 = Ok img ∧
    create_calibration_image 5 4 2 1 = Ok img ∧
    (nrows img = 4 ∧ ncols img = 5 ∧
     length (samples img) = Z.to_nat (5 * 4) ∧
     Forall (λ v, v = 0 ∨ v = 255) (samples img)) ∧
    ∀ ps, ps `prefix_of` writes 5 4 2 1 →
      ∃ a, for_ ps store img0 = Ok a ∧
        nrows a = 4 ∧ ncols a = 5 ∧
        length (samples a) = Z.to_nat (5 * 4) ∧
        Forall (λ v, v = 0 ∨ v = 255) (samples a).
Proof.
  split; [lia|]. apply (C4_shape_and_sample_values 5 4 2 1); lia.
Defined.

(** C5: on a valid input the function raises nothing, and what it returns
    is the all-zero array after the stores of [writes], one after the
    other.  Every one of these stores addresses a coordinate of the canvas,
    no component negative and none at or beyond the width or the height, so
    that no index is wrapped or refused, and it lies in the disk of a dot.
    A coordinate in the disk of a dot is stored to exactly when it lies on
    the canvas; the samples of the canvas that are white are exactly the
    coordinates stored to, so that the part of every disk that lies on the
    canvas is white and nothing else is. *)
Theorem C5_clipping w h s r :
  0 < w → 0 < h → 0 < s → 0 ≤ r →
  ∃ img, create_calibration_image w h s r = Ok img ∧
    (image ← np_zeros h w; for_ (writes w h s r) store image) = Ok img ∧
    (∀ p, p ∈ writes w h s r →
       (0 ≤ p.1 < h ∧ 0 ≤ p.2 < w) ∧
       (normalize_index h p.1 = Ok p.1 ∧ normalize_index w p.2 = Ok p.2) ∧
       ∃ cx cy dx dy,
         (0 ≤ cx < w ∧ cx mod s = 0) ∧ (0 ≤ cy < h ∧ cy mod s = 0) ∧
         dx * dx + dy * dy ≤ r * r ∧ p = (cy + dy, cx + dx)) ∧
    (∀ px py, 0 ≤ px < w → 0 ≤ py < h →
       (sample img px py = Some 255 ↔ (py, px) ∈ writes w h s r) ∧
       (sample img px py ≠ Some 255 → sample img px py = Some 0)) ∧
    (∀ cx cy dx dy,
       (0 ≤ cx < w ∧ cx mod s = 0) → (0 ≤ cy < h ∧ cy mod s = 0) →
       dx * dx + dy * dy ≤ r * r →
       ((cy + dy, cx + dx) ∈ writes w h s r ↔
          0 ≤ cy + dy < h ∧ 0 ≤ cx + dx < w) ∧
       (0 ≤ cy + dy < h ∧ 0 ≤ cx + dx < w →
          sample img (cx + dx) (cy + dy) = Some 255)).
Proof.
  intros Hw Hh Hs Hr.
  destruct (create_calibration_image_samples w h s r
              ltac:(lia) ltac:(lia) ltac:(lia)) as (img & Heq & _ & Hsam).
  assert (∀ cx cy dx dy,
            (0 ≤ cx < w ∧ cx mod s = 0) → (0 ≤ cy < h ∧ cy mod s = 0) →
            dx * dx + dy * dy ≤ r * r →
            0 ≤ cy + dy < h ∧ 0 ≤ cx + dx < w →
            (cy + dy, cx + dx) ∈ writes w h s r) as Hdrawn.
  { intros cx cy dx dy Hcx Hcy Hd Hb. apply elem_of_writes; [done|].
    exists cx, cy, dx, dy. pose proof (disk_in_square _ _ _ Hr Hd).
    split; [done|]. split; [done|]. split; [lia|]. done. }
  exists img. split; [done|]. split.
  { rewrite <- Heq. symmetry. apply create_calibration_image_writes. lia. }
  split; [|split].
  - intros p Hp. pose proof (writes_inb w h s r p Hp) as [Hy Hx].
    split; [done|]. split; [by rewrite !normalize_index_inb|].
    apply elem_of_writes in Hp
      as (cx & cy & dx & dy & Hcx & Hcy & _ & Hd & _ & ->); [|done].
    by exists cx, cy, dx, dy.
  - intros px py Hx Hy. rewrite Hsam, elem_of_writes_hit by done.
    by destruct (hit_grid w h s r py px).
  - intros cx cy dx dy Hcx Hcy Hd. split.
    + split; [intros Hin; by apply writes_inb in Hin|by apply Hdrawn].
    + intros Hb. rewrite Hsam by lia.
      by rewrite (proj1 (elem_of_writes_hit w h s r _ _ Hs)
                    (Hdrawn cx cy dx dy Hcx Hcy Hd Hb)).
Qed.

Lemma C5_clipping_witness :
  (0 < 4 ∧ 0 < 4 ∧ 0 < 100 ∧ 0 ≤ 2) ∧
  ∃ img, create_calibration_image 4 4 100 2 = Ok img ∧
    (image ← np_zeros 4 4; for_ (writes 4 4 100 2) store image) = Ok img ∧
    (∀ p, p ∈ writes 4 4 100 2 →
       (0 ≤ p.1 < 4 ∧ 0 ≤ p.2 < 4) ∧
       (normalize_index 4 p.1 = Ok p.1 ∧ normalize_index 4 p.2 = Ok p.2) ∧
       ∃ cx cy dx dy,
         (0 ≤ cx < 4 ∧ cx mod 100 = 0) ∧ (0 ≤ cy < 4 ∧ cy mod 100 = 0) ∧
         dx * dx + dy * dy ≤ 2 * 2 ∧ p = (cy + dy, cx + dx)) ∧
    (∀ px py, 0 ≤ px < 4 → 0 ≤ py < 4 →
       (sample img px py = Some 255 ↔ (py, px) ∈ writes 4 4 100 2) ∧
       (sample img px py ≠ Some 255 → sample img px py = Some 0)) ∧
    (∀ cx cy dx dy,
       (0 ≤ cx < 4 ∧ cx mod 100 = 0) → (0 ≤ cy < 4 ∧ cy mod 100 = 0) →
       dx * dx + dy * dy ≤ 2 * 2 →
       ((cy + dy, cx + dx) ∈ writes 4 4 100 2 ↔
          0 ≤ cy + dy < 4 ∧ 0 ≤ cx + dx < 4) ∧
       (0 ≤ cy + dy < 4 ∧ 0 ≤ cx + dx < 4 →
          sample img (cx + dx) (cy + dy) = Some 255)).
Proof.
  split; [lia|]. apply (C5_clipping 4 4 100 2); lia.
Defined.

(** C6: on a valid input with radius [0], exactly the samples on the grid
    ([x] a multiple of the spacing in [[0, width)], [y] a multiple of the
    spacing in [[0, height)]) are [255] and all the others are [0]; the
    number of white samples is [ceil(width / spacing) *
    ceil(height / spacing)]. *)
Theorem C6_radius_0_grid_points w h s :
  0 < w → 0 < h → 0 < s →
  ∃ img, create_calibration_image w h s 0 = Ok img ∧
    (∀ px py, 0 ≤ px < w → 0 ≤ py < h →
       (sample img px py = Some 255 ↔ px mod s = 0 ∧ py mod s = 0) ∧
       (sample img px py ≠ Some 255 → sample img px py = Some 0)) ∧
    count_white img = Z.to_nat (ceil_div w s * ceil_div h s).
Proof.
  intros Hw Hh Hs.
  destruct (create_calibration_image_samples w h s 0
              ltac:(lia) ltac:(lia) ltac:(lia)) as (img & Heq & Hwf & Hsam).
  exists img. split; [done|]. split.
  - intros px py Hx Hy. rewrite Hsam, hit_grid_radius_0 by done.
    destruct (Z.eqb_spec (py mod s) 0), (Z.eqb_spec (px mod s) 0); simpl;
      (split; [split|]); try done; tauto.
  - rewrite (canvas_tabulate h w img
               (λ py px, if (py mod s =? 0) && (px mod s =? 0)
                         then 255 else 0) Hwf).
    + apply count_white_grid; lia.
    + intros py px Hy Hx. rewrite Hsam, hit_grid_radius_0 by done.
      by destruct (_ && _).
Qed.

Lemma C6_radius_0_grid_points_witness :
  (0 < 7 ∧ 0 < 5 ∧ 0 < 3) ∧
  ∃ img, create_calibration_image 7 5 3 0 = Ok img ∧
    (∀ px py, 0 ≤ px < 7 → 0 ≤ py < 5 →
       (sample img px py = Some 255 ↔ px mod 3 = 0 ∧ py mod 3 = 0) ∧
       (sample img px py ≠ Some 255 → sample img px py = Some 0)) ∧
    count_white img = Z.to_nat (ceil_div 7 3 * ceil_div 5 3).
Proof.
  split; [lia|]. apply (C6_radius_0_grid_points 7 5 3); lia.
Defined.

(** C7: on a valid input, whatever the radius [0 ≤ radius], the sample at
    every [(x, y)] with [x % spacing == 0], [y % spacing == 0],
    [0 ≤ x < width] and [0 ≤ y < height] is [255]. *)
Theorem C7_dot_centers_white w h s r :
  0 < w → 0 < h → 0 < s → 0 ≤ r →
  ∃ img, create_calibration_image w h s r = Ok img ∧
    ∀ x y, x mod s = 0 → y mod s = 0 → 0 ≤ x < w → 0 ≤ y < h →
      sample img x y = Some 255.
Proof.
  intros Hw Hh Hs Hr.
  destruct (create_calibration_image_samples w h s r
              ltac:(lia) ltac:(lia) ltac:(lia)) as (img & Heq & _ & Hsam).
  exists img. split; [done|]. intros x y Hxm Hym Hx Hy.
  rewrite Hsam by done.
  assert (hit_grid w h s r y x = true) as ->; [|done].
  apply hit_grid_true; [done|]. split; [done|]. exists x, y.
  rewrite !Z.sub_diag. repeat split; try done; lia.
Qed.

Lemma C7_dot_centers_white_witness :
  (0 < 7 ∧ 0 < 5 ∧ 0 < 3 ∧ 0 ≤ 2) ∧
  ∃ img, create_calibration_image 7 5 3 2 = Ok img ∧
    ∀ x y, x mod 3 = 0 → y mod 3 = 0 → 0 ≤ x < 7 → 0 ≤ y < 5 →
      sample img x y = Some 255.
Proof.
  split; [lia|]. apply (C7_dot_centers_white 7 5 3 2); lia.
Defined.

(** C8: two calls with identical valid inputs both return a canvas, and
    the two canvases are identical. *)
Theorem C8_deterministic w h s r (run1 run2 : result ndarray) :
  0 < w → 0 < h → 0 < s → 0 ≤ r →
  create_calibration_image w h s r = run1 →
  create_calibration_image w h s r = run2 →
  ∃ img, run1 = Ok img ∧ run2 = Ok img ∧
    img = tabulate h w
            (λ py px, if hit_grid w h s r py px then 255 else 0).
Proof.
  intros Hw Hh Hs Hr <- <-.
  destruct (create_calibration_image_samples w h s r
              ltac:(lia) ltac:(lia) ltac:(lia)) as (img & Heq & Hwf & Hsam).
  exists img. split; [done|]. split; [done|].
  apply canvas_tabulate; [done|]. intros py px Hy Hx.
  rewrite Hsam by done. by destruct (hit_grid w h s r py px).
Qed.

Lemma C8_deterministic_witness :
  (0 < 3 ∧ 0 < 3 ∧ 0 < 2 ∧ 0 ≤ 1) ∧
  ∃ img,
    create_calibration_image 3 3 2 1 = Ok img ∧
    create_calibration_image 3 3 2 1 = Ok img ∧
    img = tabulate 3 3 (λ py px, if hit_grid 3 3 2 1 py px then 255 else 0).
Proof.
  split; [lia|].
  apply (C8_deterministic 3 3 2 1 _ _); try lia; reflexivity.
Defined.

(** C9: on a valid input, stamping the dots of the grid in any permutation
    of the order of the loops yields the canvas that the function returns;
    and storing white where it was stored already changes nothing. *)
Theorem C9_order_independent w h s r (cs : list (Z * Z)) :
  0 < w → 0 < h → 0 < s → 0 ≤ r →
  cs ≡ₚ centers w h s →
  (∃ img, create_calibration_image w h s r = Ok img ∧
     (image ← np_zeros h w; for_ cs (stamp w h r) image) = Ok img) ∧
  (∀ a p, wf h w a → p ∈ writes w h s r →
     (a' ← store p a; store p a') = store p a).
Proof.
  intros Hw Hh Hs Hr Hperm. split.
  - destruct (create_calibration_image_samples w h s r
                ltac:(lia) ltac:(lia) ltac:(lia)) as (img & Heq & _ & _).
    exists img. split; [done|]. rewrite <- Heq.
    rewrite create_calibration_image_centers, np_zeros_Ok by lia.
    rewrite !bind_Ok. apply stamps_permutation; [|done].
    apply zeros_wf; lia.
  - intros a p Hwf Hp. destruct (writes_inb w h s r p Hp).
    by apply (store_idempotent h w).
Qed.

Lemma C9_order_independent_witness :
  (0 < 3 ∧ 0 < 3 ∧ 0 < 2 ∧ 0 ≤ 2) ∧
  (∃ img, create_calibration_image 3 3 2 2 = Ok img ∧
     (image ← np_zeros 3 3;
      for_ [(2, 2); (2, 0); (0, 2); (0, 0)] (stamp 3 3 2) image) = Ok img) ∧
  (∀ a p, wf 3 3 a → p ∈ writes 3 3 2 2 →
     (a' ← store p a; store p a') = store p a).
Proof.
  split; [lia|].
  apply (C9_order_independent 3 3 2 2 (reverse (centers 3 3 2))); try lia.
  apply reverse_Permutation.
Defined.

(** C10: for [0 < width], [0 < height], [0 < spacing] and a negative radius
    the function raises nothing and returns the all-zero canvas of
    [width * height] samples: the ranges of the offsets are empty, and no
    store is performed. *)
Theorem C10_negative_radius_black w h s r :
  0 < w → 0 < h → 0 < s → r < 0 →
  ∃ img, create_calibration_image w h s r = Ok img ∧
    np_zeros h w = Ok img ∧
    writes w h s r = [] ∧
    length (samples img) = Z.to_nat (w * h) ∧
    Forall (λ v, v = 0) (samples img) ∧
    ∀ px py, 0 ≤ px < w → 0 ≤ py < h → sample img px py = Some 0.
Proof.
  intros Hw Hh Hs Hr. eexists.
  rewrite create_calibration_image_writes, writes_negative_radius by lia.
  rewrite np_zeros_Ok by lia. split; [reflexivity|]. split; [done|].
  split; [done|]. split; [|split].
  - apply (samples_length h w), zeros_wf; lia.
  - apply Forall_forall. intros v Hv.
    apply list_elem_of_join in Hv as (row & Hv & Hrow).
    apply elem_of_replicate in Hrow as [-> _].
    by apply elem_of_replicate in Hv as [-> _].
  - intros px py Hx Hy. by apply sample_zeros.
Qed.

Lemma C10_negative_radius_black_witness :
  (0 < 3 ∧ 0 < 2 ∧ 0 < 1 ∧ -1 < 0) ∧
  ∃ img, create_calibration_image 3 2 1 (-1) = Ok img ∧
    np_zeros 2 3 = Ok img ∧
    writes 3 2 1 (-1) = [] ∧
    length (samples img) = Z.to_nat (3 * 2) ∧
    Forall (λ v, v = 0) (samples img) ∧
    ∀ px py, 0 ≤ px < 3 → 0 ≤ py < 2 → sample img px py = Some 0.
Proof.
  split; [lia|]. apply (C10_negative_radius_black 3 2 1 (-1)); lia.
Defined.

(** * Further properties of the code *)

(** ** Facts used below *)

(** [range(0, stop, step)] with a negative step and [0 ≤ stop] is empty. *)
Lemma range_list_negative_step stop step :
  0 ≤ stop → step < 0 → range_list 0 stop step = [].
Proof.
  intros Hstop Hstep. unfold range_list, range_len.
  destruct (Z.ltb_spec 0 step); [lia|].
  by destruct (Z.ltb_spec stop 0); [lia|].
Qed.

Lemma count255_all_white (l : list Z) :
  Forall (λ v, v = 255) l → count255 l = length l.
Proof.
  unfold count255. induction 1 as [|v l Hv _ IH]; [done|].
  rewrite filter_cons_True by done. simpl. by rewrite IH.
Qed.

Lemma count255_fmap_mono {A} (f g : A → Z) (l : list A) :
  (∀ x, x ∈ l → f x = 255 → g x = 255) →
  (count255 (f <$> l) ≤ count255 (g <$> l))%nat.
Proof.
  induction l as [|x l IH]; intros Hfg; [done|].
  rewrite !fmap_cons.
  assert (count255 (f <$> l) ≤ count255 (g <$> l))%nat as Hle.
  { apply IH. intros y Hy. apply Hfg. by apply list_elem_of_further. }
  unfold count255 in *.
  destruct (decide (f x = 255)) as [Hf|Hf].
  - rewrite !filter_cons_True; [simpl; lia| |done].
    apply Hfg; [apply list_elem_of_here|done].
  - rewrite (filter_cons_False _ (f x)) by done.
    destruct (decide (g x = 255)).
    + rewrite filter_cons_True by done. simpl. lia.
    + by rewrite filter_cons_False.
Qed.

Lemma count255_join_mono {A} (F G : A → list Z) (l : list A) :
  (∀ y, y ∈ l → (count255 (F y) ≤ count255 (G y))%nat) →
  (count255 (mjoin (F <$> l)) ≤ count255 (mjoin (G <$> l)))%nat.
Proof.
  induction l as [|y l IH]; intros HFG; [done|].
  rewrite !fmap_cons. csimpl. rewrite !count255_app.
  pose proof (HFG y (list_elem_of_here _ _)).
  pose proof (IH (λ z Hz, HFG z (list_elem_of_further _ _ _ Hz))). lia.
Qed.

(** Every well-formed canvas is the table of its samples. *)
Lemma canvas_is_table h w a :
  wf h w a → a = tabulate h w (λ py px, default 0 (sample a px py)).
Proof.
  intros Hwf. apply canvas_tabulate; [done|]. intros py px Hy Hx.
  by destruct (sample_is_Some h w a py px Hwf Hy Hx) as [v ->].
Qed.

(** A canvas with the white samples of another and more has at least as
    many white samples. *)
Lemma count_white_mono h w a b :
  wf h w a → wf h w b →
  (∀ py px, 0 ≤ py < h → 0 ≤ px < w →
     sample a px py = Some 255 → sample b px py = Some 255) →
  (count_white a ≤ count_white b)%nat.
Proof.
  intros Ha Hb Hab.
  rewrite (canvas_is_table h w a Ha), (canvas_is_table h w b Hb).
  unfold count_white, samples, tabulate. simpl.
  change (length (filter (λ v, v = 255) ?l)) with (count255 l).
  apply count255_join_mono. intros py Hpy. apply elem_of_seqZ in Hpy.
  apply count255_fmap_mono. intros px Hpx Hv. apply elem_of_seqZ in Hpx.
  destruct (sample_is_Some h w a py px Ha ltac:(lia) ltac:(lia)) as [v Hs].
  rewrite Hs in Hv. simpl in Hv. subst v.
  by rewrite (Hab py px ltac:(lia) ltac:(lia) Hs).
Qed.

(** The multiple of [s] in [[0, w)], when [w ≤ s], is [0]. *)
Lemma multiple_below_spacing w s cx :
  w ≤ s → 0 ≤ cx < w → cx mod s = 0 → cx = 0.
Proof. intros Hws Hcx Hm. by rewrite Z.mod_small in Hm by lia. Qed.

(** ** Edge inputs *)

(** X1: with a negative spacing and a positive width and height, the
    loops over the grid are empty: the function raises nothing, stamps no
    dot and returns the all-zero canvas, whatever the radius. *)
Theorem X1_negative_spacing_black w h s r :
  0 < w → 0 < h → s < 0 →
  ∃ img, create_calibration_image w h s r = Ok img ∧
    np_zeros h w = Ok img ∧
    centers w h s = [] ∧
    (nrows img = h ∧ ncols img = w) ∧
    ∀ px py, 0 ≤ px < w → 0 ≤ py < h → sample img px py = Some 0.
Proof.
  intros Hw Hh Hs.
  assert (centers w h s = []) as Hc.
  { unfold centers. by rewrite !range_list_negative_step by lia. }
  eexists. rewrite create_calibration_image_centers, Hc by lia.
  rewrite np_zeros_Ok by lia. split; [reflexivity|]. split; [done|].
  split; [done|]. split; [done|]. intros px py Hx Hy. by apply sample_zeros.
Qed.

Lemma X1_negative_spacing_black_witness :
  (0 < 3 ∧ 0 < 2 ∧ -5 < 0) ∧
  ∃ img, create_calibration_image 3 2 (-5) 1 = Ok img ∧
    np_zeros 2 3 = Ok img ∧
    centers 3 2 (-5) = [] ∧
    (nrows img = 2 ∧ ncols img = 3) ∧
    ∀ px py, 0 ≤ px < 3 → 0 ≤ py < 2 → sample img px py = Some 0.
Proof.
  split; [lia|]. apply (X1_negative_spacing_black 3 2 (-5) 1); lia.
Defined.

(** X2: with a width or a height of [0] and a spacing other than [0], the
    loops perform no store: the lines that build the array yield what the
    allocation yields, and an array so allocated holds no sample. *)
Theorem X2_empty_canvas w h s r :
  w = 0 ∨ h = 0 → s ≠ 0 →
  writes w h s r = [] ∧
  create_calibration_image w h s r = np_zeros h w ∧
  ∀ img0, np_zeros h w = Ok img0 →
    (nrows img0 = h ∧ ncols img0 = w) ∧ samples img0 = [].
Proof.
  intros Hz Hs.
  assert (writes w h s r = []) as Hws.
  { destruct (writes w h s r) as [|p ps] eqn:Hws; [done|].
    pose proof (writes_inb w h s r p) as Hp. rewrite Hws in Hp.
    specialize (Hp (list_elem_of_here _ _)). lia. }
  split; [done|]. split.
  - rewrite create_calibration_image_writes, Hws by done.
    by destruct (np_zeros h w).
  - intros img0 Hz0. unfold np_zeros in Hz0.
    destruct (Z.ltb_spec h 0); [done|]. destruct (Z.ltb_spec w 0); [done|].
    simpl in Hz0. injection Hz0 as <-. split; [done|].
    apply length_zero_iff_nil.
    rewrite (samples_length h w) by (by apply zeros_wf).
    destruct Hz; subst; lia.
Qed.

Lemma X2_empty_canvas_witness :
  ((0 = 0 ∨ 10 = 0) ∧ 5 ≠ 0) ∧
  writes 0 10 5 1 = [] ∧
  create_calibration_image 0 10 5 1 = np_zeros 10 0 ∧
  ∀ img0, np_zeros 10 0 = Ok img0 →
    (nrows img0 = 10 ∧ ncols img0 = 0) ∧ samples img0 = [].
Proof.
  split; [lia|]. apply (X2_empty_canvas 0 10 5 1); lia.
Defined.

(** A sample is white when [hit_grid] holds of it, and black otherwise. *)
Lemma sample_white_iff w h s r img py px :
  (∀ py px, 0 ≤ py < h → 0 ≤ px < w →
     sample img px py = if hit_grid w h s r py px then Some 255 else Some 0) →
  0 ≤ py < h → 0 ≤ px < w →
  (sample img px py = Some 255 ↔ hit_grid w h s r py px = true) ∧
  (sample img px py ≠ Some 255 → sample img px py = Some 0).
Proof.
  intros Hsam Hy Hx. rewrite Hsam by done.
  by destruct (hit_grid w h s r py px).
Qed.

Lemma range_list_single n s : 0 < n ≤ s → range_list 0 n s = [0].
Proof.
  intros Hn. unfold range_list, range_len.
  destruct (Z.ltb_spec 0 s); [|lia]. destruct (Z.ltb_spec 0 n); [|lia].
  by rewrite Z.div_small by lia.
Qed.

(** ** The pattern *)

(** X3: when the spacing is at least the width and the height, the grid has
    the single center [(0, 0)], and the white samples are the part of its
    disk that lies on the canvas: [(px, py)] is white exactly when
    [px * px + py * py ≤ radius * radius]. *)
Theorem X3_single_dot_at_origin w h s r :
  0 < w → 0 < h → w ≤ s → h ≤ s → 0 ≤ r →
  ∃ img, create_calibration_image w h s r = Ok img ∧
    centers w h s = [(0, 0)] ∧
    ∀ px py, 0 ≤ px < w → 0 ≤ py < h →
      (sample img px py = Some 255 ↔ px * px + py * py ≤ r * r) ∧
      (sample img px py ≠ Some 255 → sample img px py = Some 0).
Proof.
  intros Hw Hh Hws Hhs Hr.
  destruct (create_calibration_image_samples w h s r
              ltac:(lia) ltac:(lia) ltac:(lia)) as (img & Heq & _ & Hsam).
  exists img. split; [done|]. split.
  { unfold centers. by rewrite !range_list_single by lia. }
  intros px py Hx Hy.
  destruct (sample_white_iff w h s r img py px Hsam Hy Hx) as [Hiff Hblack].
  split; [|done]. rewrite Hiff, hit_grid_true by lia. split.
  - intros (_ & cx & cy & [Hcx Hcxm] & [Hcy Hcym] & _ & Hd).
    apply (multiple_below_spacing w s) in Hcxm; [|done..].
    apply (multiple_below_spacing h s) in Hcym; [|done..].
    subst. by rewrite !Z.sub_0_r in Hd.
  - intros Hd. split; [done|]. exists 0, 0. rewrite !Z.sub_0_r.
    pose proof (disk_in_square _ _ _ Hr Hd).
    rewrite Z.mod_0_l by lia. repeat split; try done; lia.
Qed.

Lemma X3_single_dot_at_origin_witness :
  (0 < 30 ∧ 0 < 30 ∧ 30 ≤ 100 ∧ 30 ≤ 100 ∧ 0 ≤ 2) ∧
  ∃ img, create_calibration_image 30 30 100 2 = Ok img ∧
    centers 30 30 100 = [(0, 0)] ∧
    ∀ px py, 0 ≤ px < 30 → 0 ≤ py < 30 →
      (sample img px py = Some 255 ↔ px * px + py * py ≤ 2 * 2) ∧
      (sample img px py ≠ Some 255 → sample img px py = Some 0).
Proof.
  split; [lia|]. apply (X3_single_dot_at_origin 30 30 100 2); lia.
Defined.

(** X4: when the disks are large enough to reach across a cell of the grid,
    [2 * (spacing - 1) * (spacing - 1) ≤ radius * radius], every sample of
    the canvas is white. *)
Theorem X4_all_white w h s r :
  0 < w → 0 < h → 0 < s → 0 ≤ r →
  2 * (s - 1) * (s - 1) ≤ r * r →
  ∃ img, create_calibration_image w h s r = Ok img ∧
    (∀ px py, 0 ≤ px < w → 0 ≤ py < h → sample img px py = Some 255) ∧
    count_white img = Z.to_nat (w * h).
Proof.
  intros Hw Hh Hs Hr Hcover.
  destruct (create_calibration_image_samples w h s r
              ltac:(lia) ltac:(lia) ltac:(lia)) as (img & Heq & Hwf & Hsam).
  assert (∀ px py, 0 ≤ px < w → 0 ≤ py < h → sample img px py = Some 255)
    as Hall.
  { intros px py Hx Hy.
    apply (sample_white_iff w h s r img py px Hsam Hy Hx).
    apply hit_grid_true; [done|]. split; [done|].
    exists (s * (px / s)), (s * (py / s)).
    pose proof (Z.div_mod px s ltac:(lia)).
    pose proof (Z.div_mod py s ltac:(lia)).
    pose proof (Z.mod_pos_bound px s Hs).
    pose proof (Z.mod_pos_bound py s Hs).
    assert (0 ≤ px / s) by (apply Z.div_pos; lia).
    assert (0 ≤ py / s) by (apply Z.div_pos; lia).
    replace (px - s * (px / s)) with (px mod s) by lia.
    replace (py - s * (py / s)) with (py mod s) by lia.
    rewrite !(Z.mul_comm s), !Z_mod_mult.
    assert (px mod s * (px mod s) + py mod s * (py mod s) ≤ r * r) as Hd
      by nia.
    pose proof (disk_in_square _ _ _ Hr Hd).
    repeat split; try done; nia. }
  exists img. split; [done|]. split; [done|].
  unfold count_white. change (length (filter (λ v, v = 255) ?l)) with (count255 l).
  rewrite count255_all_white; [by apply (samples_length h w)|].
  apply Forall_forall. intros v Hv.
  destruct (elem_of_samples h w img v Hwf Hv) as (py & px & Hy & Hx & Hsv).
  rewrite Hall in Hsv by done. by injection Hsv.
Qed.

Lemma X4_all_white_witness :
  (0 < 5 ∧ 0 < 4 ∧ 0 < 3 ∧ 0 ≤ 3 ∧ 2 * (3 - 1) * (3 - 1) ≤ 3 * 3) ∧
  ∃ img, create_calibration_image 5 4 3 3 = Ok img ∧
    (∀ px py, 0 ≤ px < 5 → 0 ≤ py < 4 → sample img px py = Some 255) ∧
    count_white img = Z.to_nat (5 * 4).
Proof.
  split; [lia|]. apply (X4_all_white 5 4 3 3); lia.
Defined.

(** X5: a larger radius only adds white: for [radius ≤ radius'], every
    sample that is white with [radius] is white with [radius'], and the
    canvas has at least as many white samples. *)
Theorem X5_monotone_in_radius w h s r r' :
  0 < w → 0 < h → 0 < s → r ≤ r' →
  ∃ img img',
    create_calibration_image w h s r = Ok img ∧
    create_calibration_image w h s r' = Ok img' ∧
    (∀ px py, 0 ≤ px < w → 0 ≤ py < h →
       sample img px py = Some 255 → sample img' px py = Some 255) ∧
    (count_white img ≤ count_white img')%nat.
Proof.
  intros Hw Hh Hs Hrr.
  destruct (create_calibration_image_samples w h s r
              ltac:(lia) ltac:(lia) ltac:(lia)) as (img & Heq & Hwf & Hsam).
  destruct (create_calibration_image_samples w h s r'
              ltac:(lia) ltac:(lia) ltac:(lia)) as (img' & Heq' & Hwf' & Hsam').
  assert (∀ py px, 0 ≤ py < h → 0 ≤ px < w →
            sample img px py = Some 255 → sample img' px py = Some 255)
    as Hmono.
  { intros py px Hy Hx Hwhite.
    apply (sample_white_iff w h s r img py px Hsam Hy Hx) in Hwhite.
    apply (sample_white_iff w h s r' img' py px Hsam' Hy Hx).
    apply hit_grid_true in Hwhite as (_ & cx & cy & Hcx & Hcy & Hsq & Hd);
      [|done].
    apply hit_grid_true; [done|]. split; [done|]. exists cx, cy.
    repeat split; try tauto; try lia; nia. }
  exists img, img'. split; [done|]. split; [done|]. split.
  - intros px py Hx Hy. by apply Hmono.
  - by apply (count_white_mono h w).
Qed.

Lemma X5_monotone_in_radius_witness :
  (0 < 7 ∧ 0 < 5 ∧ 0 < 3 ∧ 1 ≤ 2) ∧
  ∃ img img',
    create_calibration_image 7 5 3 1 = Ok img ∧
    create_calibration_image 7 5 3 2 = Ok img' ∧
    (∀ px py, 0 ≤ px < 7 → 0 ≤ py < 5 →
       sample img px py = Some 255 → sample img' px py = Some 255) ∧
    (count_white img ≤ count_white img')%nat.
Proof.
  split; [lia|]. apply (X5_monotone_in_radius 7 5 3 1 2); lia.
Defined.

(** X6: a larger canvas keeps the white samples of a smaller one: for
    [width ≤ width'] and [height ≤ height'], a sample that is white on the
    smaller canvas is white at the same place on the larger one. *)
Theorem X6_monotone_in_size w h w' h' s r :
  0 < w → 0 < h → 0 < s → w ≤ w' → h ≤ h' →
  ∃ img img',
    create_calibration_image w h s r = Ok img ∧
    create_calibration_image w' h' s r = Ok img' ∧
    ∀ px py, 0 ≤ px < w → 0 ≤ py < h →
      sample img px py = Some 255 → sample img' px py = Some 255.
Proof.
  intros Hw Hh Hs Hww Hhh.
  destruct (create_calibration_image_samples w h s r
              ltac:(lia) ltac:(lia) ltac:(lia)) as (img & Heq & _ & Hsam).
  destruct (create_calibration_image_samples w' h' s r
              ltac:(lia) ltac:(lia) ltac:(lia)) as (img' & Heq' & _ & Hsam').
  exists img, img'. split; [done|]. split; [done|].
  intros px py Hx Hy Hwhite.
  apply (sample_white_iff w h s r img py px Hsam Hy Hx) in Hwhite.
  apply (sample_white_iff w' h' s r img' py px Hsam'); [lia..|].
  apply hit_grid_true in Hwhite as (_ & cx & cy & Hcx & Hcy & Hsq & Hd);
    [|done].
  apply hit_grid_true; [done|]. split; [lia|]. exists cx, cy.
  repeat split; try tauto; lia.
Qed.

Lemma X6_monotone_in_size_witness :
  (0 < 4 ∧ 0 < 4 ∧ 0 < 4 ∧ 4 ≤ 5 ∧ 4 ≤ 6) ∧
  ∃ img img',
    create_calibration_image 4 4 4 1 = Ok img ∧
    create_calibration_image 5 6 4 1 = Ok img' ∧
    ∀ px py, 0 ≤ px < 4 → 0 ≤ py < 4 →
      sample img px py = Some 255 → sample img' px py = Some 255.
Proof.
  split; [lia|]. apply (X6_monotone_in_size 4 4 5 6 4 1); lia.
Defined.

(** The converse fails: the larger canvas has more dots, and their disks
    reach into the region of the smaller one. *)
Example larger_canvas_adds_white :
  ∃ img img',
    create_calibration_image 4 1 4 1 = Ok img ∧
    create_calibration_image 5 1 4 1 = Ok img' ∧
    sample img 3 0 = Some 0 ∧ sample img' 3 0 = Some 255.
Proof. eexists _, _. split; [by vm_compute|]. split; by vm_compute. Qed.

(** X7: exchanging the width and the height transposes the canvas: the
    sample at [(px, py)] of the [width] by [height] canvas is the sample at
    [(py, px)] of the [height] by [width] canvas. *)
Theorem X7_transpose w h s r :
  0 < w → 0 < h → 0 < s →
  ∃ img img_t,
    create_calibration_image w h s r = Ok img ∧
    create_calibration_image h w s r = Ok img_t ∧
    ∀ px py, 0 ≤ px < w → 0 ≤ py < h →
      sample img px py = sample img_t py px.
Proof.
  intros Hw Hh Hs.
  destruct (create_calibration_image_samples w h s r
              ltac:(lia) ltac:(lia) ltac:(lia)) as (img & Heq & _ & Hsam).
  destruct (create_calibration_image_samples h w s r
              ltac:(lia) ltac:(lia) ltac:(lia)) as (img' & Heq' & _ & Hsam').
  exists img, img'. split; [done|]. split; [done|].
  intros px py Hx Hy. rewrite Hsam, Hsam' by done.
  assert (hit_grid w h s r py px = hit_grid h w s r px py) as ->; [|done].
  apply eq_true_iff_eq. rewrite !hit_grid_true by done.
  split; intros (_ & cx & cy & Hcx & Hcy & Hsq & Hd);
    (split; [done|]); exists cy, cx; repeat split; try tauto; lia.
Qed.

Lemma X7_transpose_witness :
  (0 < 7 ∧ 0 < 4 ∧ 0 < 3) ∧
  ∃ img img_t,
    create_calibration_image 7 4 3 1 = Ok img ∧
    create_calibration_image 4 7 3 1 = Ok img_t ∧
    ∀ px py, 0 ≤ px < 7 → 0 ≤ py < 4 →
      sample img px py = sample img_t py px.
Proof.
  split; [lia|]. apply (X7_transpose 7 4 3 1); lia.
Defined.

(** A coordinate within [r] of a multiple of [s] has a residue of at most
    [r] or of at least [s - r]. *)
Lemma residue_near_multiple s r p c :
  0 < s → c mod s = 0 → - r ≤ p - c ≤ r →
  ¬ (r < p mod s < s - r).
Proof.
  intros Hs Hc Hd [Hlo Hhi].
  pose proof (Z.div_mod p s ltac:(lia)) as Hp.
  pose proof (Z.div_mod c s ltac:(lia)) as Hcd.
  pose proof (Z.mod_pos_bound p s Hs).
  rewrite Hc in Hcd.
  destruct (Z.le_gt_cases (c / s) (p / s)); nia.
Qed.

(** X8: between the dots the canvas is black: a row whose residue modulo
    the spacing lies strictly between [radius] and [spacing - radius] holds
    no white sample, and likewise a column. *)
Theorem X8_black_between_dots w h s r :
  0 < w → 0 < h → 0 < s →
  ∃ img, create_calibration_image w h s r = Ok img ∧
    ∀ px py, 0 ≤ px < w → 0 ≤ py < h →
      r < py mod s < s - r ∨ r < px mod s < s - r →
      sample img px py = Some 0.
Proof.
  intros Hw Hh Hs.
  destruct (create_calibration_image_samples w h s r
              ltac:(lia) ltac:(lia) ltac:(lia)) as (img & Heq & _ & Hsam).
  exists img. split; [done|]. intros px py Hx Hy Hgap.
  apply (sample_white_iff w h s r img py px Hsam Hy Hx).
  intros Hwhite.
  apply (sample_white_iff w h s r img py px Hsam Hy Hx) in Hwhite.
  apply hit_grid_true in Hwhite
    as (_ & cx & cy & [_ Hcx] & [_ Hcy] & [Hdx Hdy] & _); [|done].
  destruct Hgap as [Hgap|Hgap].
  - by apply (residue_near_multiple s r py cy).
  - by apply (residue_near_multiple s r px cx).
Qed.

Lemma X8_black_between_dots_witness :
  (0 < 12 ∧ 0 < 12 ∧ 0 < 5) ∧
  ∃ img, create_calibration_image 12 12 5 1 = Ok img ∧
    ∀ px py, 0 ≤ px < 12 → 0 ≤ py < 12 →
      1 < py mod 5 < 5 - 1 ∨ 1 < px mod 5 < 5 - 1 →
      sample img px py = Some 0.
Proof.
  split; [lia|]. apply (X8_black_between_dots 12 12 5 1); lia.
Defined.

(** ** The dots and the stores of a run *)

Lemma range_list_length n s :
  0 < s → 0 ≤ n → length (range_list 0 n s) = Z.to_nat (ceil_div n s).
Proof.
  intros Hs Hn. unfold range_list.
  rewrite length_fmap, length_seqZ. f_equal. unfold range_len, ceil_div.
  destruct (Z.ltb_spec 0 s); [|lia].
  destruct (Z.ltb_spec 0 n).
  - replace (n + s - 1) with (n - 0 - 1 + 1 * s) by lia.
    by rewrite Z.div_add by lia.
  - replace n with 0 by lia. symmetry. apply Z.div_small. lia.
Qed.

Lemma range_list_NoDup start stop step :
  step ≠ 0 → NoDup (range_list start stop step).
Proof.
  intros Hs. unfold range_list. apply NoDup_fmap_2_strong; [|apply NoDup_seqZ].
  intros i j _ _ Heq. nia.
Qed.

Lemma range_offsets_length r :
  0 ≤ r → length (range_list (- r) (r + 1) 1) = Z.to_nat (2 * r + 1).
Proof.
  intros Hr. unfold range_list. rewrite length_fmap, length_seqZ. f_equal.
  unfold range_len. simpl. destruct (Z.ltb_spec (- r) (r + 1)); [|lia].
  rewrite Z.div_1_r. lia.
Qed.

Lemma length_bind_const {A B} (f : A → list B) (l : list A) (n : nat) :
  (∀ x, x ∈ l → length (f x) = n) → length (l ≫= f) = (length l * n)%nat.
Proof.
  induction l as [|x l IH]; intros Hf; [done|].
  rewrite bind_cons, length_app, IH, Hf; [done|apply list_elem_of_here|].
  intros y Hy. apply Hf. by apply list_elem_of_further.
Qed.

Lemma length_bind_le {A B} (f : A → list B) (l : list A) (n : nat) :
  (∀ x, x ∈ l → (length (f x) ≤ n)%nat) →
  (length (l ≫= f) ≤ length l * n)%nat.
Proof.
  induction l as [|x l IH]; intros Hf; [done|].
  rewrite bind_cons, length_app. simpl.
  pose proof (Hf x (list_elem_of_here _ _)).
  pose proof (IH (λ y Hy, Hf y (list_elem_of_further _ _ _ Hy))). lia.
Qed.

Lemma length_bind_ge {A B} (f : A → list B) (l : list A) (n : nat) :
  (∀ x, x ∈ l → (n ≤ length (f x))%nat) →
  (length l * n ≤ length (l ≫= f))%nat.
Proof.
  induction l as [|x l IH]; intros Hf; [done|].
  rewrite bind_cons, length_app. simpl.
  pose proof (Hf x (list_elem_of_here _ _)).
  pose proof (IH (λ y Hy, Hf y (list_elem_of_further _ _ _ Hy))). lia.
Qed.

Lemma centers_NoDup w h s : s ≠ 0 → NoDup (centers w h s).
Proof.
  intros Hs. unfold centers. apply NoDup_bind.
  - intros y1 y2 c _ _ Hc1 Hc2.
    apply list_elem_of_bind in Hc1 as (x1 & Hc1 & _).
    apply list_elem_of_bind in Hc2 as (x2 & Hc2 & _).
    apply list_elem_of_singleton in Hc1, Hc2. congruence.
  - intros y _. apply NoDup_bind.
    + intros x1 x2 c _ _ Hc1 Hc2.
      apply list_elem_of_singleton in Hc1, Hc2. congruence.
    + intros x _. apply NoDup_singleton.
    + by apply range_list_NoDup.
  - by apply range_list_NoDup.
Qed.

Lemma centers_length w h s :
  0 < s → 0 ≤ w → 0 ≤ h →
  length (centers w h s) = Z.to_nat (ceil_div w s * ceil_div h s).
Proof.
  intros Hs Hw Hh. unfold centers.
  rewrite (length_bind_const _ _ (Z.to_nat (ceil_div w s))).
  - rewrite range_list_length by done.
    pose proof (ceil_div_nonneg w s Hs Hw).
    pose proof (ceil_div_nonneg h s Hs Hh).
    rewrite Z2Nat.inj_mul by done. lia.
  - intros y _. rewrite (length_bind_const _ _ 1%nat) by done.
    rewrite range_list_length by done. lia.
Qed.

(** X9: the two outer loops visit exactly the points of the grid, each of
    them once: [ceil(width / spacing) * ceil(height / spacing)] dots, and
    the function is the stamping of these dots, in this order, on the
    all-zero canvas. *)
Theorem X9_grid_centers w h s r :
  0 ≤ w → 0 ≤ h → 0 < s →
  create_calibration_image w h s r =
    (image ← np_zeros h w; for_ (centers w h s) (stamp w h r) image) ∧
  NoDup (centers w h s) ∧
  length (centers w h s) = Z.to_nat (ceil_div w s * ceil_div h s) ∧
  ∀ cx cy, (cy, cx) ∈ centers w h s ↔
    (0 ≤ cy < h ∧ cy mod s = 0) ∧ (0 ≤ cx < w ∧ cx mod s = 0).
Proof.
  intros Hw Hh Hs.
  split; [apply create_calibration_image_centers; lia|].
  split; [apply centers_NoDup; lia|].
  split; [by apply centers_length|].
  intros cx cy. by rewrite elem_of_centers.
Qed.

Lemma X9_grid_centers_witness :
  (0 ≤ 7 ∧ 0 ≤ 5 ∧ 0 < 3) ∧
  create_calibration_image 7 5 3 1 =
    (image ← np_zeros 5 7; for_ (centers 7 5 3) (stamp 7 5 1) image) ∧
  NoDup (centers 7 5 3) ∧
  length (centers 7 5 3) = Z.to_nat (ceil_div 7 3 * ceil_div 5 3) ∧
  ∀ cx cy, (cy, cx) ∈ centers 7 5 3 ↔
    (0 ≤ cy < 5 ∧ cy mod 3 = 0) ∧ (0 ≤ cx < 7 ∧ cx mod 3 = 0).
Proof.
  split; [lia|]. apply (X9_grid_centers 7 5 3 1); lia.
Defined.

Lemma writes_dot_length_le w h r y x :
  0 ≤ r →
  (length (writes_dot w h r y x) ≤ Z.to_nat ((2 * r + 1) * (2 * r + 1)))%nat.
Proof.
  intros Hr. unfold writes_dot.
  etransitivity; [apply (length_bind_le _ _ (Z.to_nat (2 * r + 1)))|].
  - intros dy _.
    etransitivity; [apply (length_bind_le _ _ 1%nat)|].
    + intros dx _. destruct (_ <=? _); [|simpl; lia].
      destruct (_ && _); simpl; lia.
    + rewrite range_offsets_length by done. lia.
  - rewrite range_offsets_length by done.
    rewrite Z2Nat.inj_mul by lia. lia.
Qed.

(** A dot whose center is on the canvas stores at least to its center. *)
Lemma writes_dot_length_ge w h r y x :
  0 ≤ r → 0 ≤ y < h → 0 ≤ x < w →
  (1 ≤ length (writes_dot w h r y x))%nat.
Proof.
  intros Hr Hy Hx.
  assert ((y, x) ∈ writes_dot w h r y x) as Hin.
  { apply elem_of_writes_dot. exists 0, 0. rewrite !Z.add_0_r.
    repeat split; try done; lia. }
  destruct (writes_dot w h r y x); [by apply elem_of_nil in Hin|simpl; lia].
Qed.

(** X10: the number of stores of a run: each of the dots stores at least
    once and at most [(2 * radius + 1) * (2 * radius + 1)] times. *)
Theorem X10_number_of_stores w h s r :
  0 ≤ w → 0 ≤ h → 0 < s → 0 ≤ r →
  create_calibration_image w h s r =
    (image ← np_zeros h w; for_ (writes w h s r) store image) ∧
  (Z.to_nat (ceil_div w s * ceil_div h s) ≤ length (writes w h s r))%nat ∧
  (length (writes w h s r) ≤
     Z.to_nat (ceil_div w s * ceil_div h s) *
     Z.to_nat ((2 * r + 1) * (2 * r + 1)))%nat.
Proof.
  intros Hw Hh Hs Hr.
  split; [apply create_calibration_image_writes; lia|].
  rewrite <- centers_length by done. unfold writes. split.
  - rewrite <- (Nat.mul_1_r (length (centers w h s))) at 1.
    apply length_bind_ge. intros c Hc.
    apply elem_of_centers in Hc as [[Hy _] [Hx _]]; [|done].
    by apply writes_dot_length_ge.
  - apply length_bind_le. intros c _. by apply writes_dot_length_le.
Qed.

Lemma X10_number_of_stores_witness :
  (0 ≤ 7 ∧ 0 ≤ 5 ∧ 0 < 3 ∧ 0 ≤ 1) ∧
  create_calibration_image 7 5 3 1 =
    (image ← np_zeros 5 7; for_ (writes 7 5 3 1) store image) ∧
  (Z.to_nat (ceil_div 7 3 * ceil_div 5 3) ≤ length (writes 7 5 3 1))%nat ∧
  (length (writes 7 5 3 1) ≤
     Z.to_nat (ceil_div 7 3 * ceil_div 5 3) *
     Z.to_nat ((2 * 1 + 1) * (2 * 1 + 1)))%nat.
Proof.
  split; [lia|]. apply (X10_number_of_stores 7 5 3 1); lia.
Defined.

(** ** Dots that do not overlap *)

(** Two multiples of [s] less than [s] apart are equal. *)
Lemma multiples_close s a b :
  0 < s → a mod s = 0 → b mod s = 0 → - s < a - b < s → a = b.
Proof.
  intros Hs Ha Hb Hd.
  pose proof (Z.div_mod a s ltac:(lia)) as Hda.
  pose proof (Z.div_mod b s ltac:(lia)) as Hdb.
  rewrite Ha in Hda. rewrite Hb in Hdb.
  assert (a / s = b / s) by nia. congruence.
Qed.

Lemma writes_dot_NoDup w h r y x : NoDup (writes_dot w h r y x).
Proof.
  unfold writes_dot. apply NoDup_bind.
  - intros dy1 dy2 p _ _ Hp1 Hp2.
    apply list_elem_of_bind in Hp1 as (dx1 & Hp1 & _).
    apply list_elem_of_bind in Hp2 as (dx2 & Hp2 & _).
    destruct (_ <=? _) in Hp1; [|by apply elem_of_nil in Hp1].
    destruct (_ && _) in Hp1; [|by apply elem_of_nil in Hp1].
    destruct (_ <=? _) in Hp2; [|by apply elem_of_nil in Hp2].
    destruct (_ && _) in Hp2; [|by apply elem_of_nil in Hp2].
    apply list_elem_of_singleton in Hp1, Hp2. subst p.
    injection Hp2 as Hy _. lia.
  - intros dy _. apply NoDup_bind.
    + intros dx1 dx2 p _ _ Hp1 Hp2.
      destruct (_ <=? _) in Hp1; [|by apply elem_of_nil in Hp1].
      destruct (_ && _) in Hp1; [|by apply elem_of_nil in Hp1].
      destruct (_ <=? _) in Hp2; [|by apply elem_of_nil in Hp2].
      destruct (_ && _) in Hp2; [|by apply elem_of_nil in Hp2].
      apply list_elem_of_singleton in Hp1, Hp2. subst p.
      injection Hp2 as Hx. lia.
    + intros dx _. destruct (_ <=? _); [|apply NoDup_nil_2].
      destruct (_ && _); [apply NoDup_singleton|apply NoDup_nil_2].
    + by apply range_list_NoDup.
  - by apply range_list_NoDup.
Qed.

(** With [2 * radius < spacing] no coordinate is stored to twice. *)
Lemma writes_NoDup w h s r : 0 < s → 2 * r < s → NoDup (writes w h s r).
Proof.
  intros Hs Hrs. unfold writes. apply NoDup_bind.
  - intros c1 c2 p Hc1 Hc2 Hp1 Hp2.
    apply elem_of_centers in Hc1 as [[_ Hy1] [_ Hx1]]; [|done].
    apply elem_of_centers in Hc2 as [[_ Hy2] [_ Hx2]]; [|done].
    apply elem_of_writes_dot in Hp1 as (dy1 & dx1 & [? ?] & _ & _ & Hp1).
    apply elem_of_writes_dot in Hp2 as (dy2 & dx2 & [? ?] & _ & _ & Hp2).
    rewrite Hp1 in Hp2. injection Hp2 as Hy Hx.
    destruct c1 as [y1 x1], c2 as [y2 x2]; simpl in *. f_equal.
    + apply (multiples_close s); try done; lia.
    + apply (multiples_close s); try done; lia.
  - intros c _. apply writes_dot_NoDup.
  - apply centers_NoDup. lia.
Qed.

Lemma count255_insert_white (row : list Z) (i : nat) (v : Z) :
  row !! i = Some v → v ≠ 255 →
  count255 (<[i := 255]> row) = S (count255 row).
Proof.
  unfold count255. revert i. induction row as [|u row IH]; intros i Hi Hv;
    [done|].
  destruct i as [|i]; simpl in Hi.
  - injection Hi as ->. change (<[0%nat := 255]> (v :: row)) with (255 :: row).
    rewrite filter_cons_True by done. by rewrite filter_cons_False by done.
  - change (<[S i := 255]> (u :: row)) with (u :: <[i := 255]> row).
    destruct (decide (u = 255)).
    + rewrite !filter_cons_True by done. simpl. by rewrite (IH i).
    + rewrite !filter_cons_False by done. by apply IH.
Qed.

Lemma count255_join_alter (rows : list (list Z)) (j : nat) (row : list Z)
    (f : list Z → list Z) :
  rows !! j = Some row → count255 (f row) = S (count255 row) →
  count255 (mjoin (alter f j rows)) = S (count255 (mjoin rows)).
Proof.
  revert j. induction rows as [|row0 rows IH]; intros j Hj Hf; [done|].
  destruct j as [|j]; simpl in Hj.
  - injection Hj as ->.
    change (mjoin (alter f 0%nat (row :: rows))) with (f row ++ mjoin rows).
    change (mjoin (row :: rows)) with (row ++ mjoin rows).
    by rewrite !count255_app, Hf.
  - change (mjoin (alter f (S j) (row0 :: rows)))
      with (row0 ++ mjoin (alter f j rows)).
    change (mjoin (row0 :: rows)) with (row0 ++ mjoin rows).
    rewrite !count255_app, (IH j) by done. lia.
Qed.

(** A store to a sample that is not white makes one more white sample. *)
Lemma setitem_count_white h w a yy xx v :
  wf h w a → 0 ≤ yy < h → 0 ≤ xx < w →
  sample a xx yy = Some v → v ≠ 255 →
  ∃ a', setitem a yy xx 255 = Ok a' ∧ count_white a' = S (count_white a).
Proof.
  intros Hwf Hy Hx Hs Hv. pose proof Hwf as (Hr & Hc & _).
  unfold setitem. rewrite Hr, Hc, !normalize_index_inb by done. simpl.
  eexists. split; [done|]. unfold count_white, samples. simpl.
  change (length (filter (λ v, v = 255) ?l)) with (count255 l).
  unfold sample in Hs.
  destruct (Z.ltb_spec yy 0); [lia|]. destruct (Z.ltb_spec xx 0); [lia|].
  simpl in Hs. destruct (data a !! Z.to_nat yy) as [row|] eqn:Hrow; [|done].
  simpl in Hs. apply (count255_join_alter _ _ row); [done|].
  by apply (count255_insert_white _ _ v).
Qed.

(** Stores to distinct samples that are not white: as many more white
    samples as stores. *)
Lemma stores_count_white h w (ps : list (Z * Z)) a :
  wf h w a → NoDup ps →
  (∀ p, p ∈ ps → (0 ≤ p.1 < h ∧ 0 ≤ p.2 < w) ∧ sample a p.2 p.1 ≠ Some 255) →
  ∃ a', for_ ps store a = Ok a' ∧
    count_white a' = (length ps + count_white a)%nat.
Proof.
  revert a. induction ps as [|p ps IH]; intros a Hwf Hnd Hps.
  { exists a. by split. }
  apply NoDup_cons in Hnd as [Hp Hnd].
  destruct (Hps p (list_elem_of_here _ _)) as [[Hy Hx] Hblack].
  destruct (sample_is_Some h w a p.1 p.2 Hwf Hy Hx) as [v Hv].
  destruct (setitem_count_white h w a p.1 p.2 v Hwf Hy Hx Hv) as (a1 & Heq1 & Hc1).
  { intros ->. by rewrite Hv in Hblack. }
  destruct (setitem_inb h w a p.1 p.2 255 Hwf Hy Hx) as (a1' & Heq1' & Hwf1 & Hs1).
  rewrite Heq1 in Heq1'. injection Heq1' as <-.
  destruct (IH a1 Hwf1 Hnd) as (a2 & Heq2 & Hc2).
  { intros q Hq.
    destruct (Hps q (list_elem_of_further _ _ _ Hq)) as [[Hqy Hqx] Hqb].
    split; [done|]. rewrite Hs1 by done.
    destruct (Z.eqb_spec q.1 p.1) as [E1|E1];
      destruct (Z.eqb_spec q.2 p.2) as [E2|E2]; simpl; try done.
    exfalso. apply Hp. destruct p, q; simpl in *. by subst. }
  assert (store p a = Ok a1) as Hst by exact Heq1.
  exists a2. split; [|rewrite Hc2, Hc1; simpl; lia].
  change (for_ (p :: ps) store a) with (a' ← store p a; for_ ps store a').
  by rewrite Hst.
Qed.

Lemma count_white_zeros h w :
  count_white
    (mk_ndarray h w (replicate (Z.to_nat h) (replicate (Z.to_nat w) 0)))
    = 0%nat.
Proof.
  unfold count_white, samples. simpl.
  assert (Forall (λ v, v ≠ 255)
            (mjoin (replicate (Z.to_nat h) (replicate (Z.to_nat w) 0))))
    as Hall.
  { apply Forall_forall. intros v Hv.
    apply list_elem_of_join in Hv as (row & Hv & Hrow).
    apply elem_of_replicate in Hrow as [-> _].
    by apply elem_of_replicate in Hv as [-> _]. }
  induction Hall as [|v l Hv _ IH]; [done|].
  by rewrite filter_cons_False.
Qed.

(** With [2 * radius < spacing] every store turns a black sample white. *)
Lemma count_white_no_overlap w h s r :
  0 < w → 0 < h → 0 < s → 2 * r < s →
  ∃ img, create_calibration_image w h s r = Ok img ∧
    count_white img = length (writes w h s r).
Proof.
  intros Hw Hh Hs Hrs.
  pose proof (writes_NoDup w h s r Hs Hrs) as Hnd.
  rewrite create_calibration_image_writes, np_zeros_Ok by lia.
  rewrite bind_Ok.
  destruct (stores_count_white h w (writes w h s r) _
              (zeros_wf h w ltac:(lia) ltac:(lia)) Hnd) as (img & Heq & Hc).
  { intros p Hp. pose proof (writes_inb w h s r p Hp) as [Hy Hx].
    split; [done|]. by rewrite sample_zeros. }
  exists img. split; [done|]. rewrite Hc, count_white_zeros. lia.
Qed.

(** X11: when the dots cannot overlap, [2 * radius < spacing], no sample is
    stored to twice, and the number of white samples of the canvas is the
    number of stores of the run. *)
Theorem X11_no_overlap w h s r :
  0 < w → 0 < h → 0 < s → 2 * r < s →
  NoDup (writes w h s r) ∧
  ∃ img, create_calibration_image w h s r = Ok img ∧
    count_white img = length (writes w h s r).
Proof.
  intros Hw Hh Hs Hrs. split; [by apply writes_NoDup|].
  by apply count_white_no_overlap.
Qed.

Lemma X11_no_overlap_witness :
  (0 < 7 ∧ 0 < 5 ∧ 0 < 3 ∧ 2 * 1 < 3) ∧
  NoDup (writes 7 5 3 1) ∧
  ∃ img, create_calibration_image 7 5 3 1 = Ok img ∧
    count_white img = length (writes 7 5 3 1).
Proof.
  split; [lia|]. apply (X11_no_overlap 7 5 3 1); lia.
Defined.

(** ** The defaults of the signature and the script *)

(** X12: a call that gives a width and a height of at most 100 and leaves
    the spacing and the radius to their defaults (100 and 1), as the script
    does with 30 and 30, yields a single dot at the corner: the white
    samples are [(0, 0)], [(1, 0)] and [(0, 1)], those of them that the
    canvas has. *)
Theorem X12_default_pattern_small_canvas w h :
  0 < w ≤ 100 → 0 < h ≤ 100 →
  main = create_calibration_image_kw (Some 30) (Some 30) None None ∧
  ∃ img, create_calibration_image_kw (Some w) (Some h) None None = Ok img ∧
    (nrows img = h ∧ ncols img = w) ∧
    ∀ px py, 0 ≤ px < w → 0 ≤ py < h →
      (sample img px py = Some 255 ↔ px + py ≤ 1) ∧
      (sample img px py ≠ Some 255 → sample img px py = Some 0).
Proof.
  intros Hw Hh. split; [done|]. unfold create_calibration_image_kw. simpl.
  destruct (create_calibration_image_samples w h 100 1
              ltac:(lia) ltac:(lia) ltac:(lia)) as (img & Heq & Hwf & Hsam).
  exists img. split; [done|]. pose proof Hwf as (Hr1 & Hr2 & _).
  split; [done|]. intros px py Hx Hy.
  destruct (sample_white_iff w h 100 1 img py px Hsam Hy Hx) as [Hiff Hblack].
  split; [|done]. rewrite Hiff, hit_grid_true by lia. split.
  - intros (_ & cx & cy & [Hcx Hcxm] & [Hcy Hcym] & _ & Hd).
    apply (multiple_below_spacing w 100) in Hcxm; [|lia..].
    apply (multiple_below_spacing h 100) in Hcym; [|lia..].
    subst. rewrite !Z.sub_0_r in Hd.
    assert (px = 0 ∨ px = 1) as [-> | ->] by nia; nia.
  - intros Hd. split; [done|]. exists 0, 0. rewrite !Z.sub_0_r.
    repeat split; try done; try lia; nia.
Qed.

Lemma X12_default_pattern_small_canvas_witness :
  (0 < 30 ≤ 100 ∧ 0 < 30 ≤ 100) ∧
  main = create_calibration_image_kw (Some 30) (Some 30) None None ∧
  ∃ img, create_calibration_image_kw (Some 30) (Some 30) None None = Ok img ∧
    (nrows img = 30 ∧ ncols img = 30) ∧
    ∀ px py, 0 ≤ px < 30 → 0 ≤ py < 30 →
      (sample img px py = Some 255 ↔ px + py ≤ 1) ∧
      (sample img px py ≠ Some 255 → sample img px py = Some 0).
Proof.
  split; [lia|]. apply (X12_default_pattern_small_canvas 30 30); lia.
Defined.

(** ** The number of white samples for radius 1 *)

Lemma bind_bind {A B C} (l : list A) (f : A → list B) (g : B → list C) :
  (l ≫= f) ≫= g = l ≫= (λ x, f x ≫= g).
Proof.
  induction l as [|x l IH]; [done|].
  by rewrite !bind_cons, bind_app, IH.
Qed.

Lemma length_bind_sumZ {A B} (f : A → list B) (l : list A) :
  Z.of_nat (length (l ≫= f)) = sumZ (λ x, Z.of_nat (length (f x))) l.
Proof.
  induction l as [|x l IH]; [done|].
  rewrite bind_cons, length_app, Nat2Z.inj_add, IH. done.
Qed.

Lemma sumZ_ext_in {A} (f g : A → Z) (l : list A) :
  (∀ x, x ∈ l → f x = g x) → sumZ f l = sumZ g l.
Proof.
  induction l as [|x l IH]; intros Hfg; [done|]. simpl.
  rewrite (Hfg x (list_elem_of_here _ _)).
  by rewrite (IH (λ y Hy, Hfg y (list_elem_of_further _ _ _ Hy))).
Qed.

Lemma sumZ_add {A} (f g : A → Z) (l : list A) :
  sumZ (λ x, f x + g x) l = sumZ f l + sumZ g l.
Proof. induction l as [|x l IH]; [done|]. simpl. rewrite IH. lia. Qed.

Lemma sumZ_const {A} (c : Z) (l : list A) :
  sumZ (λ _, c) l = c * Z.of_nat (length l).
Proof. induction l as [|x l IH]; simpl; [lia|]. rewrite IH. lia. Qed.

Lemma sumZ_indicator {A} (b : A → bool) (P : A → Prop)
    `{∀ x, Decision (P x)} (l : list A) :
  (∀ x, b x = true ↔ P x) →
  sumZ (λ x, if b x then 1 else 0) l = Z.of_nat (length (filter P l)).
Proof.
  intros Hb. induction l as [|x l IH]; [done|]. simpl. rewrite IH.
  destruct (b x) eqn:Hx.
  - rewrite filter_cons_True by (by apply Hb). simpl. lia.
  - rewrite filter_cons_False; [lia|]. intros HP. apply Hb in HP. congruence.
Qed.

(** The multiples of [s] in [[1, n)]: all those of [[0, n)] but [0]. *)
Lemma range_list_count_positive n s :
  0 < s → 0 < n →
  Z.of_nat (length (filter (λ y, 1 ≤ y) (range_list 0 n s))) =
    ceil_div n s - 1.
Proof.
  intros Hs Hn.
  assert (range_list 0 n s ≡ₚ 0 :: filter (λ y, 1 ≤ y) (range_list 0 n s))
    as Hperm.
  { apply NoDup_Permutation.
    - apply range_list_NoDup. lia.
    - apply NoDup_cons. split.
      + rewrite list_elem_of_filter. lia.
      + apply NoDup_filter, range_list_NoDup. lia.
    - intros y. rewrite elem_of_cons, list_elem_of_filter.
      rewrite elem_of_range_multiples by done. split.
      + intros [Hy Hm]. destruct (decide (y = 0)); [by left|right].
        split; [lia|done].
      + intros [->|[Hy Hm]]; [|done]. split; [lia|]. apply Z.mod_0_l. lia. }
  apply Permutation_length in Hperm. simpl in Hperm.
  rewrite range_list_length in Hperm by lia.
  pose proof (ceil_div_nonneg n s Hs ltac:(lia)). lia.
Qed.

(** The multiples [y] of [s] in [[0, n)] with [y + 1 < n]: those of
    [[0, n - 1)]. *)
Lemma range_list_count_inner n s :
  0 < s → 0 < n →
  Z.of_nat (length (filter (λ y, y + 1 < n) (range_list 0 n s))) =
    ceil_div (n - 1) s.
Proof.
  intros Hs Hn.
  assert (filter (λ y, y + 1 < n) (range_list 0 n s) ≡ₚ
          range_list 0 (n - 1) s) as Hperm.
  { apply NoDup_Permutation.
    - apply NoDup_filter, range_list_NoDup. lia.
    - apply range_list_NoDup. lia.
    - intros y. rewrite list_elem_of_filter.
      rewrite !elem_of_range_multiples by done. split.
      + intros [Hy1 [Hy Hm]]. split; [lia|done].
      + intros [Hy Hm]. split; [lia|]. split; [lia|done]. }
  apply Permutation_length in Hperm. rewrite Hperm.
  rewrite range_list_length by lia.
  pose proof (ceil_div_nonneg (n - 1) s Hs ltac:(lia)). lia.
Qed.

(** The stores of a dot of radius 1 whose center is on the canvas: the
    center and those of its four neighbors that the canvas has. *)
Lemma writes_dot_radius_1_length w h y x :
  0 ≤ y < h → 0 ≤ x < w →
  Z.of_nat (length (writes_dot w h 1 y x)) =
    1 + (if 1 <=? y then 1 else 0) + (if y + 1 <? h then 1 else 0)
      + (if 1 <=? x then 1 else 0) + (if x + 1 <? w then 1 else 0).
Proof.
  intros Hy Hx. unfold writes_dot.
  change (range_list (- (1)) (1 + 1) 1) with [-1; 0; 1].
  cbn [mbind list_bind app].
  repeat match goal with
         | |- context [?a * ?b + ?c * ?d <=? 1 * 1] =>
             let v := eval cbv in (a * b + c * d <=? 1 * 1) in
             change (a * b + c * d <=? 1 * 1) with v; cbv iota
         end.
  rewrite !Z.add_0_r.
  replace (0 <=? y) with true by (symmetry; apply Z.leb_le; lia).
  replace (y <? h) with true by (symmetry; apply Z.ltb_lt; lia).
  replace (0 <=? x) with true by (symmetry; apply Z.leb_le; lia).
  replace (x <? w) with true by (symmetry; apply Z.ltb_lt; lia).
  replace (y + -1 <? h) with true by (symmetry; apply Z.ltb_lt; lia).
  replace (x + -1 <? w) with true by (symmetry; apply Z.ltb_lt; lia).
  replace (0 <=? y + 1) with true by (symmetry; apply Z.leb_le; lia).
  replace (0 <=? x + 1) with true by (symmetry; apply Z.leb_le; lia).
  replace (0 <=? y + -1) with (1 <=? y)
    by (destruct (Z.leb_spec 1 y), (Z.leb_spec 0 (y + -1)); lia).
  replace (0 <=? x + -1) with (1 <=? x)
    by (destruct (Z.leb_spec 1 x), (Z.leb_spec 0 (x + -1)); lia).
  destruct (1 <=? y), (y + 1 <? h), (1 <=? x), (x + 1 <? w); reflexivity.
Qed.

Lemma sumZ_mul_r {A} (f : A → Z) (c : Z) (l : list A) :
  sumZ (λ x, f x * c) l = sumZ f l * c.
Proof. induction l as [|x l IH]; [done|]. simpl. rewrite IH. lia. Qed.

(** The stores of the dots of one row of the grid, for radius 1. *)
Lemma writes_row_radius_1_length w h s y :
  0 < w → 0 < s → 0 ≤ y < h →
  Z.of_nat
    (length (range_list 0 w s ≫= (λ x, writes_dot w h 1 y x))) =
    (1 + (if 1 <=? y then 1 else 0) + (if y + 1 <? h then 1 else 0))
      * ceil_div w s
    + (ceil_div w s - 1) + ceil_div (w - 1) s.
Proof.
  intros Hw Hs Hy. rewrite length_bind_sumZ.
  rewrite (sumZ_ext_in _
    (λ x, (1 + (if 1 <=? y then 1 else 0) + (if y + 1 <? h then 1 else 0))
          + ((if 1 <=? x then 1 else 0) + (if x + 1 <? w then 1 else 0)))).
  2:{ intros x Hx. apply elem_of_range_multiples in Hx as [Hx _]; [|done].
      rewrite writes_dot_radius_1_length by done. lia. }
  rewrite sumZ_add, sumZ_const, sumZ_add.
  rewrite (sumZ_indicator _ (λ x, 1 ≤ x)) by (intros x; apply Z.leb_le).
  rewrite (sumZ_indicator _ (λ x, x + 1 < w)) by (intros x; apply Z.ltb_lt).
  rewrite range_list_count_positive, range_list_count_inner by done.
  rewrite range_list_length by lia.
  pose proof (ceil_div_nonneg w s Hs ltac:(lia)).
  rewrite Z2Nat.id by done. lia.
Qed.

(** X13: the number of white samples for radius 1, the default, and a
    spacing of at least 3: with [nx = ceil(width / spacing)] and
    [ny = ceil(height / spacing)] dots per row and per column, each dot has
    its center, its left and upper neighbors unless it is in the first
    column or row, and its right and lower neighbors when the canvas has
    them. *)
Theorem X13_white_count_radius_1 w h s :
  0 < w → 0 < h → 3 ≤ s →
  ∃ img, create_calibration_image w h s 1 = Ok img ∧
    Z.of_nat (count_white img) =
      3 * ceil_div w s * ceil_div h s - ceil_div w s - ceil_div h s
      + ceil_div (w - 1) s * ceil_div h s
      + ceil_div (h - 1) s * ceil_div w s.
Proof.
  intros Hw Hh Hs.
  destruct (count_white_no_overlap w h s 1 Hw Hh ltac:(lia) ltac:(lia))
    as (img & Heq & Hc).
  exists img. split; [done|]. rewrite Hc. unfold writes, centers.
  rewrite bind_bind.
  rewrite (list_bind_ext _
    (λ y, range_list 0 w s ≫= (λ x, writes_dot w h 1 y x))
    (range_list 0 h s) (range_list 0 h s)); [|intros y|done].
  2:{ rewrite bind_bind. apply list_bind_ext; [|done]. intros x.
      by rewrite bind_singleton. }
  rewrite length_bind_sumZ.
  rewrite (sumZ_ext_in _
    (λ y, ((1 + ((if 1 <=? y then 1 else 0) + (if y + 1 <? h then 1 else 0)))
           * ceil_div w s)
          + (ceil_div w s - 1 + ceil_div (w - 1) s))).
  2:{ intros y Hy. apply elem_of_range_multiples in Hy as [Hy _]; [|lia].
      rewrite writes_row_radius_1_length by (done || lia). lia. }
  rewrite sumZ_add, sumZ_const, sumZ_mul_r, sumZ_add, sumZ_const, sumZ_add.
  rewrite (sumZ_indicator _ (λ y, 1 ≤ y)) by (intros y; apply Z.leb_le).
  rewrite (sumZ_indicator _ (λ y, y + 1 < h)) by (intros y; apply Z.ltb_lt).
  rewrite range_list_count_positive, range_list_count_inner by lia.
  rewrite range_list_length by lia.
  pose proof (ceil_div_nonneg h s ltac:(lia) ltac:(lia)).
  rewrite Z2Nat.id by done. lia.
Qed.

Lemma X13_white_count_radius_1_witness :
  (0 < 1400 ∧ 0 < 1400 ∧ 3 ≤ 100) ∧
  ∃ img, create_calibration_image 1400 1400 100 1 = Ok img ∧
    Z.of_nat (count_white img) =
      3 * ceil_div 1400 100 * ceil_div 1400 100
      - ceil_div 1400 100 - ceil_div 1400 100
      + ceil_div (1400 - 1) 100 * ceil_div 1400 100
      + ceil_div (1400 - 1) 100 * ceil_div 1400 100.
Proof.
  split; [lia|]. apply (X13_white_count_radius_1 1400 1400 100); lia.
Defined.
